(** * Rubik's cube state recognition: colour classification and repair

    A shallow embedding of the Python backend
    ([backend/color_recognition.py], [backend/solver.py]) and the
    properties of its sticker classifier, its per-face distribution
    repair and its global nine-of-each repair.

    Conventions of the embedding:
    - a Python [str] is a [string]; iterating it or calling [list] on it
      gives a [list ascii]; a colour symbol is an [ascii];
    - a Python [int] is a [Z];
    - a Python [dict] is an insertion-ordered association list with
      unique keys ([max], [min] and [.items()] depend on that order);
    - a raised exception is the [Raise] result; every subscript
      ([d[k]], [l[i]]) is modelled with the exception it can raise;
    - [print] calls only report counts and are left out. *)

From Stdlib Require Import ZArith QArith Qabs Qminmax Lqa String Ascii List Lia DecimalString.
From stdpp Require Import base relations list strings.

Local Open Scope Z_scope.

(** ** Exceptions and results *)

Inductive exn : Type :=
| ValueError (msg : string)
| KeyError (key : string)
| IndexError.

Inductive result (A : Type) : Type :=
| Ok (a : A)
| Raise (e : exn).
Arguments Ok {A} a.
Arguments Raise {A} e.

#[global] Instance result_ret : MRet result := fun _ a => Ok a.
#[global] Instance result_bind : MBind result := fun _ _ f r =>
  match r with
  | Ok a => f a
  | Raise e => Raise e
  end.

(** ** [for] loops with [break] *)

Inductive control (S : Type) : Type :=
| Continue (s : S)
| Break (s : S).
Arguments Continue {S} s.
Arguments Break {S} s.

(** [for x in xs: body], the loop state threaded through the body; the body
    says whether it ran to its end or hit a [break]. *)
Fixpoint for_in {A S : Type} (xs : list A) (body : A -> S -> result (control S))
    (s : S) : result S :=
  match xs with
  | [] => Ok s
  | x :: xs' =>
      match body x s with
      | Raise e => Raise e
      | Ok (Break s') => Ok s'
      | Ok (Continue s') => for_in xs' body s'
      end
  end.

(** [range(n)] *)
Definition range (n : nat) : list nat := seq 0 n.

(** ** Lists used as arrays *)

(** [l[i]] for [i >= 0] *)
Definition list_getitem {A : Type} (l : list A) (i : nat) : result A :=
  match l !! i with
  | Some x => Ok x
  | None => Raise IndexError
  end.

(** [l[i] = x] for [i >= 0] *)
Definition list_setitem {A : Type} (l : list A) (i : nat) (x : A) : result (list A) :=
  if decide (i < length l)%nat then Ok (<[i:=x]> l) else Raise IndexError.

(** ** Dictionaries *)

Class KeyRepr (K : Type) := key_repr : K -> string.
#[global] Instance ascii_repr : KeyRepr ascii := fun c => String c EmptyString.
#[global] Instance string_repr : KeyRepr string := fun s => s.

Section Dict.
Context {K V : Type} `{EqDecision K} `{KeyRepr K}.

Definition dict : Type := list (K * V).

Fixpoint dict_find (d : dict) (k : K) : option V :=
  match d with
  | [] => None
  | (k', v) :: d' => if decide (k' = k) then Some v else dict_find d' k
  end.

(** [k in d] *)
Definition dict_mem (d : dict) (k : K) : bool :=
  match dict_find d k with Some _ => true | None => false end.

(** [d.get(k, default)] *)
Definition dict_get (d : dict) (k : K) (default : V) : V :=
  match dict_find d k with Some v => v | None => default end.

(** [d[k]] *)
Definition dict_getitem (d : dict) (k : K) : result V :=
  match dict_find d k with
  | Some v => Ok v
  | None => Raise (KeyError (key_repr k))
  end.

(** [d[k] = v]: an existing key keeps its place, a new key goes last. *)
Fixpoint dict_set (d : dict) (k : K) (v : V) : dict :=
  match d with
  | [] => [(k, v)]
  | (k', v') :: d' =>
      if decide (k' = k) then (k', v) :: d' else (k', v') :: dict_set d' k v
  end.

Definition dict_keys (d : dict) : list K := map fst d.
Definition dict_values (d : dict) : list V := map snd d.
End Dict.
Arguments dict K V : clear implicits.

(** [d[k] += delta] *)
Definition dict_iadd {K : Type} `{EqDecision K} `{KeyRepr K}
    (d : dict K Z) (k : K) (delta : Z) : result (dict K Z) :=
  v ← dict_getitem d k; Ok (dict_set d k (v + delta)).

(** The counting loop shared by both repairs:
    [counts = {}; for color in xs: counts[color] = counts.get(color, 0) + 1] *)
Definition count_colors (xs : list ascii) : dict ascii Z :=
  foldl (fun d color => dict_set d color (dict_get d color 0 + 1)) [] xs.

(** ** color_recognition.py: the sticker classifier *)

(** An averaged HSV sample, or one corner of a range box. *)
Record hsv : Type := HSV { hue : Z; sat : Z; val : Z }.

Definition COLOR_RANGES : dict ascii (hsv * hsv) :=
  [ ("U"%char, (HSV 0 0 180, HSV 180 30 255));
    ("R"%char, (HSV 0 120 70, HSV 10 255 255));
    ("F"%char, (HSV 40 120 70, HSV 80 255 255));
    ("D"%char, (HSV 15 120 70, HSV 35 255 255));
    ("L"%char, (HSV 5 120 70, HSV 20 255 255));
    ("B"%char, (HSV 90 120 70, HSV 130 255 255)) ].

(** [cv2.inRange] on one pixel: every channel within its bounds, inclusive. *)
Definition in_range (avg_color lower upper : hsv) : bool :=
  (hue lower <=? hue avg_color) && (hue avg_color <=? hue upper) &&
  (sat lower <=? sat avg_color) && (sat avg_color <=? sat upper) &&
  (val lower <=? val avg_color) && (val avg_color <=? val upper).

(** lines 47-55, in exact rational arithmetic.  The program computes the score
    in floating point; a finite float is a rational number and floats compare
    as the rationals they are, so the classification loop below takes the
    score as an argument with rational values, and [match_score] is the score
    without rounding. *)
Definition match_score (avg_color lower upper : hsv) : Q :=
  let center_hue := (inject_Z (hue lower + hue upper) / 2)%Q in
  let center_sat := (inject_Z (sat lower + sat upper) / 2)%Q in
  let center_val := (inject_Z (val lower + val upper) / 2)%Q in
  let hue_diff := Qmin (Qabs (inject_Z (hue avg_color) - center_hue))
                       (180 - Qabs (inject_Z (hue avg_color) - center_hue)) in
  let sat_diff := Qabs (inject_Z (sat avg_color) - center_sat) in
  let val_diff := Qabs (inject_Z (val avg_color) - center_val) in
  (1 / (1 + hue_diff / 180 + sat_diff / 255 + val_diff / 255))%Q.

(** lines 40-59: body of [for color_code, (lower, upper) in COLOR_RANGES.items()];
    the state is [(matched_color, best_match_score)]. *)
Definition consider_range (score_of : hsv -> hsv -> hsv -> Q) (avg_color : hsv)
    (st : option ascii * Q) (item : ascii * (hsv * hsv)) : option ascii * Q :=
  let '(matched_color, best_match_score) := st in
  let '(color_code, (lower, upper)) := item in
  if in_range avg_color lower upper then
    let score := score_of avg_color lower upper in
    if Qlt_le_dec best_match_score score then (Some color_code, score)
    else st
  else st.

(** lines 103-113: the medium-saturation block; [None] when no branch returns *)
Definition medium_saturation (h s : Z) : option ascii :=
  if (40 <? s) && (s <? 120) then
    if (h <? 15) || (165 <? h) then Some "R"%char
    else if (15 <? h) && (h <? 35) then Some "D"%char
    else if (35 <? h) && (h <? 70) then Some "F"%char
    else if (70 <? h) && (h <? 130) then Some "B"%char
    else if (130 <? h) && (h <? 165) then Some "L"%char
    else None
  else None.

(** lines 116-126: the high-saturation block; [None] when no branch returns *)
Definition high_saturation (h s : Z) : option ascii :=
  if 120 <? s then
    if (h <? 10) || (170 <? h) then Some "R"%char
    else if (10 <? h) && (h <? 30) then Some "L"%char
    else if (30 <? h) && (h <? 80) then Some "F"%char
    else if (80 <? h) && (h <? 130) then Some "B"%char
    else if (130 <? h) && (h <? 170) then Some "R"%char
    else None
  else None.

(** lines 85-129 *)
Definition analyze_color_fallback (hsv_color : hsv) : ascii :=
  let h := hue hsv_color in
  let s := sat hsv_color in
  let v := val hsv_color in
  if s <? 50 then "U"%char
  else if 200 <? v then
    if (h <? 15) || (165 <? h) then "R"%char
    else if (15 <? h) && (h <? 35) then "D"%char
    else "U"%char
  else
    match medium_saturation h s with
    | Some c => c
    | None =>
        match high_saturation h s with
        | Some c => c
        | None => "U"%char
        end
    end.

(** lines 37-63: the classification of one averaged sample.  The score and
    the table are arguments; the program uses the formula of lines 47-55 and
    [COLOR_RANGES]. *)
Definition classify_sticker (score_of : hsv -> hsv -> hsv -> Q)
    (ranges : dict ascii (hsv * hsv)) (avg_color : hsv) : ascii :=
  match fst (foldl (consider_range score_of avg_color) (None, 0%Q) ranges) with
  | Some matched_color => matched_color
  | None => analyze_color_fallback avg_color
  end.

(** ** color_recognition.py: [fix_color_distribution] *)

(** [max(d.items(), key=lambda x: x[1])]: the first item with the largest value *)
Definition max_item (d : dict ascii Z) : result (ascii * Z) :=
  match d with
  | [] => Raise (ValueError "max() arg is an empty sequence"%string)
  | item :: d' =>
      Ok (foldl (fun best item => if snd best <? snd item then item else best) item d')
  end.

(** [min(d.items(), key=lambda x: x[1])]: the first item with the smallest value *)
Definition min_item (d : dict ascii Z) : result (ascii * Z) :=
  match d with
  | [] => Raise (ValueError "min() arg is an empty sequence"%string)
  | item :: d' =>
      Ok (foldl (fun best item => if snd item <? snd best then item else best) item d')
  end.

Definition target_colors : list ascii := ["U"; "R"; "F"; "D"; "L"; "B"]%char.

(** lines 158-163: body of [for replacement in replacement_colors] *)
Definition try_underrepresented (most_common : ascii * Z) (i : nat) (replacement : ascii)
    (st : list ascii * dict ascii Z) : result (control (list ascii * dict ascii Z)) :=
  let '(face_colors, color_counts) := st in
  if dict_get color_counts replacement 0 <? 2 then
    face_colors ← list_setitem face_colors i replacement;
    let color_counts :=
      dict_set color_counts replacement (dict_get color_counts replacement 0 + 1) in
    color_counts ← dict_iadd color_counts (fst most_common) (-1);
    Ok (Break (face_colors, color_counts))
  else Ok (Continue st).

(** lines 155-164: body of [for i in range(len(face_colors))], first pass;
    the state is [(face_colors, color_counts, excess_count)]. *)
Definition spread_at (most_common : ascii * Z) (replacement_colors : list ascii) (i : nat)
    (st : list ascii * dict ascii Z * Z)
    : result (control (list ascii * dict ascii Z * Z)) :=
  let '(face_colors, color_counts, excess_count) := st in
  x ← list_getitem face_colors i;
  if bool_decide (x = fst most_common) && (0 <? excess_count) then
    '(face_colors, color_counts) ←
      for_in replacement_colors (try_underrepresented most_common i)
             (face_colors, color_counts);
    Ok (Continue (face_colors, color_counts, excess_count - 1))
  else Ok (Continue st).

(** lines 150-164: the first pass, run when the most common colour is on more
    than 7 stickers *)
Definition spread_most_common (most_common : ascii * Z)
    (st : list ascii * dict ascii Z) : result (list ascii * dict ascii Z * Z) :=
  let '(face_colors, color_counts) := st in
  let excess_count := snd most_common - 3 in
  let replacement_colors :=
    filter (fun c => c ≠ fst most_common) target_colors in
  for_in (range (length face_colors)) (spread_at most_common replacement_colors)
         (face_colors, color_counts, excess_count).

(** lines 174-182: body of [for i in range(len(face_colors))], final check;
    the state is [(face_colors, final_counts, excess)]. *)
Definition cap_at (color : ascii) (i : nat) (st : list ascii * dict ascii Z * Z)
    : result (control (list ascii * dict ascii Z * Z)) :=
  let '(face_colors, final_counts, excess) := st in
  x ← list_getitem face_colors i;
  if bool_decide (x = color) && (0 <? excess) then
    least_common ← min_item final_counts;
    if bool_decide (fst least_common ≠ color) then
      face_colors ← list_setitem face_colors i (fst least_common);
      final_counts ← dict_iadd final_counts (fst least_common) 1;
      final_counts ← dict_iadd final_counts color (-1);
      Ok (Continue (face_colors, final_counts, excess - 1))
    else Ok (Continue st)
  else Ok (Continue st).

(** lines 171-182: body of [for color, count in final_counts.items()].  The
    loop only changes values of existing keys, so the view yields the keys in
    their first order, each with the value it has when the loop reaches it. *)
Definition cap_color (color : ascii) (st : list ascii * dict ascii Z)
    : result (control (list ascii * dict ascii Z)) :=
  let '(face_colors, final_counts) := st in
  count ← dict_getitem final_counts color;
  if 5 <? count then
    '(face_colors, final_counts, _) ←
      for_in (range (length face_colors)) (cap_at color)
             (face_colors, final_counts, count - 4);
    Ok (Continue (face_colors, final_counts))
  else Ok (Continue st).

(** lines 167-182: the final check *)
Definition final_check (face_colors : list ascii) : result (list ascii) :=
  let final_counts := count_colors face_colors in
  '(face_colors, _) ←
    for_in (dict_keys final_counts) cap_color (face_colors, final_counts);
  Ok face_colors.

Definition fix_color_distribution (face_colors : list ascii) (face_label : string)
    : result (list ascii) :=
  let color_counts := count_colors face_colors in
  if (1 <? length color_counts)%nat then
    most_common ← max_item color_counts;
    if 6 <? snd most_common then
      face_colors ←
        (if 7 <? snd most_common then
           '(face_colors, _, _) ← spread_most_common most_common (face_colors, color_counts);
           Ok face_colors
         else Ok face_colors);
      final_check face_colors
    else Ok face_colors
  else Ok face_colors.

(** ** solver.py: [validate_and_fix_cube_state] *)


Definition expected_colors : list ascii := ["U"; "R"; "F"; "D"; "L"; "B"]%char.

(** [str(n)] for a length *)
Definition str_of_nat (n : nat) : string := NilZero.string_of_uint (Nat.to_uint n).

(** lines 69-71 *)
Definition add_missing (color_counts : dict ascii Z) : dict ascii Z :=
  foldl (fun d color => if dict_mem d color then d else dict_set d color 0)
        color_counts expected_colors.

(** line 74 *)
Definition needs_fixing (color_counts : dict ascii Z) : bool :=
  existsb (fun count => negb (count =? 9)) (dict_values color_counts).

(** The state of the inner loops: [cube_list], [color_counts] and the
    counter ([excess] or [needed]). *)
Definition loop_state : Type := list ascii * dict ascii Z * Z.

(** lines 90-96: body of [for replacement_color in expected_colors] *)
Definition try_replacement (target_color : ascii) (i : nat) (replacement_color : ascii)
    (st : loop_state) : result (control loop_state) :=
  let '(cube_list, color_counts, excess) := st in
  c ← dict_getitem color_counts replacement_color;
  if c <? 9 then
    cube_list ← list_setitem cube_list i replacement_color;
    color_counts ← dict_iadd color_counts target_color (-1);
    color_counts ← dict_iadd color_counts replacement_color 1;
    Ok (Break (cube_list, color_counts, excess - 1))
  else Ok (Continue st).

(** lines 87-96: body of [for i in range(len(cube_list))], too-many branch *)
Definition shed_excess_at (target_color : ascii) (i : nat) (st : loop_state)
    : result (control loop_state) :=
  let '(cube_list, color_counts, excess) := st in
  x ← list_getitem cube_list i;
  if bool_decide (x = target_color) && (0 <? excess) then
    st ← for_in expected_colors (try_replacement target_color i) st;
    Ok (Continue st)
  else Ok (Continue st).

(** lines 105-112: body of [for excess_color in expected_colors] *)
Definition try_excess_color (target_color : ascii) (i : nat) (excess_color : ascii)
    (st : loop_state) : result (control loop_state) :=
  let '(cube_list, color_counts, needed) := st in
  c ← dict_getitem color_counts excess_color;
  if 9 <? c then
    x ← list_getitem cube_list i;
    if bool_decide (x = excess_color) then
      cube_list ← list_setitem cube_list i target_color;
      color_counts ← dict_iadd color_counts excess_color (-1);
      color_counts ← dict_iadd color_counts target_color 1;
      Ok (Break (cube_list, color_counts, needed - 1))
    else Ok (Continue st)
  else Ok (Continue st).

(** lines 101-112: body of [for i in range(len(cube_list))], too-few branch *)
Definition fill_need_at (target_color : ascii) (i : nat) (st : loop_state)
    : result (control loop_state) :=
  let '(_, _, needed) := st in
  if needed <=? 0 then Ok (Break st)
  else
    st ← for_in expected_colors (try_excess_color target_color i) st;
    Ok (Continue st).

(** lines 81-112: body of [for target_color in expected_colors] *)
Definition fix_target (target_color : ascii) (st : list ascii * dict ascii Z)
    : result (control (list ascii * dict ascii Z)) :=
  let '(cube_list, color_counts) := st in
  current_count ← dict_getitem color_counts target_color;
  if 9 <? current_count then
    '(cube_list, color_counts, _) ←
      for_in (range (length cube_list)) (shed_excess_at target_color)
             (cube_list, color_counts, current_count - 9);
    Ok (Continue (cube_list, color_counts))
  else if current_count <? 9 then
    '(cube_list, color_counts, _) ←
      for_in (range (length cube_list)) (fill_need_at target_color)
             (cube_list, color_counts, 9 - current_count);
    Ok (Continue (cube_list, color_counts))
  else Ok (Continue st).

Definition validate_and_fix_cube_state (cube_state : string) : result string :=
  if decide (String.length cube_state ≠ 54%nat) then
    Raise (ValueError (String.append "Cube state must be 54 characters, got "%string
                                      (str_of_nat (String.length cube_state))))
  else
    let color_counts := add_missing (count_colors (list_ascii_of_string cube_state)) in
    if needs_fixing color_counts then
      '(cube_list, _) ←
        for_in expected_colors fix_target (list_ascii_of_string cube_state, color_counts);
      Ok (string_of_list_ascii cube_list)
    else Ok cube_state.

(** ** solver.py: the move tables *)

Definition MOVE_NAME : dict string string :=
  [ ("U", "Rotate Up face clockwise");
    ("U'", "Rotate Up face counter-clockwise");
    ("U2", "Rotate Up face 180°");
    ("D", "Rotate Down face clockwise");
    ("D'", "Rotate Down face counter-clockwise");
    ("D2", "Rotate Down face 180°");
    ("L", "Rotate Left face clockwise");
    ("L'", "Rotate Left face counter-clockwise");
    ("L2", "Rotate Left face 180°");
    ("R", "Rotate Right face clockwise");
    ("R'", "Rotate Right face counter-clockwise");
    ("R2", "Rotate Right face 180°");
    ("F", "Rotate Front face clockwise");
    ("F'", "Rotate Front face counter-clockwise");
    ("F2", "Rotate Front face 180°");
    ("B", "Rotate Back face clockwise");
    ("B'", "Rotate Back face counter-clockwise");
    ("B2", "Rotate Back face 180°") ]%string.

(** lines 27-34: the table [base] of [_orientation_hint] *)
Definition orientation_base : dict string string :=
  [ ("U", "Keep white (U) on top; turn the top layer.");
    ("D", "Keep white (U) on top; turn the bottom layer.");
    ("L", "Left face on your left; turn left layer.");
    ("R", "Right face on your right; turn right layer.");
    ("F", "Front face towards you; turn front layer.");
    ("B", "Back face away from you; turn back layer.") ]%string.

(** line 36: the sentence for a move whose face is not in the table *)
Definition orientation_default : string :=
  "Perform the indicated move while keeping U on top and F in front."%string.

(** lines 25-36; [move[0]] raises [IndexError] on the empty string *)
Definition _orientation_hint (move : string) : result string :=
  match move with
  | EmptyString => Raise IndexError
  | String face _ => Ok (dict_get orientation_base (String face EmptyString) orientation_default)
  end.

(** ** The image pipeline: [recognize_face_colors] and [solve_cube_from_images] *)

Definition face_order : list string := ["U"; "R"; "F"; "D"; "L"; "B"]%string.

Section Pipeline.
(** OpenCV and NumPy are outside the program.  [imread] is [cv2.imread]
    ([None] when the file cannot be loaded); [avg_color image row col] is
    the averaged HSV sample of the central area of one grid square of the
    resized image (lines 18-35). *)
Variable image : Type.
Variable imread : string -> option image.
Variable avg_color : image -> nat -> nat -> hsv.

(** lines 25-65: the nine classifications, row-major *)
Definition scan_grid (img : image) : list ascii :=
  flat_map (fun row =>
    map (fun col => classify_sticker match_score COLOR_RANGES (avg_color img row col))
        (range 3))
    (range 3).

(** [show_grid] keeps its default [False]. *)
Definition recognize_face_colors (image_path face_label : string) : result (list ascii) :=
  match imread image_path with
  | None => Raise (ValueError (String.append "Could not load image: "%string image_path))
  | Some img => fix_color_distribution (scan_grid img) face_label
  end.

(** lines 43-45: the loop over [face_order].  Next to the cube state built so
    far it records the faces whose classification has been carried out. *)
Fixpoint scan_faces (image_paths : dict string string) (faces : list string)
    (cube_state : string) (classified : list string) : list string * result string :=
  match faces with
  | [] => (classified, Ok cube_state)
  | face :: faces' =>
      match dict_getitem image_paths face with
      | Raise e => (classified, Raise e)
      | Ok image_path =>
          match recognize_face_colors image_path face with
          | Raise e => (classified, Raise e)
          | Ok colors =>
              scan_faces image_paths faces'
                         (String.append cube_state (string_of_list_ascii colors))
                         (classified ++ [face])
          end
      end
  end.

(** lines 38-53, with the record of classified faces *)
Definition solve_cube_from_images_traced (image_paths : dict string string)
    : list string * result (dict string string) :=
  let '(classified, r) := scan_faces image_paths face_order EmptyString [] in
  (classified,
   cube_state ← r;
   cube_state ← validate_and_fix_cube_state cube_state;
   Ok [("cube_state"%string, cube_state)]).

Definition solve_cube_from_images (image_paths : dict string string)
    : result (dict string string) :=
  snd (solve_cube_from_images_traced image_paths).
End Pipeline.

(** ** app.py: the [/solve] route *)

Definition required_faces : list string := ["U"; "R"; "F"; "D"; "L"; "B"]%string.

(** What [solve] returns to Flask: the JSON body and the status code. *)
Record response : Type := Response { body : dict string string; status : Z }.

Section Route.
(** Flask, Werkzeug, the file system and OpenCV are outside the program.
    An [upload] is a [FileStorage] and [truthy] is its truth value; the
    file system maps a path to the upload saved there; [decode] is what
    [cv2.imread] makes of a stored file; [secure_filename] is Werkzeug's and
    [path_join] is [os.path.join].  The request carries its content type, its
    parsed JSON body (a mapping of names to path mappings) and its uploaded
    files. *)
Variable image : Type.
Variable upload : Type.
Variable truthy : upload -> bool.
Variable decode : upload -> option image.
Variable avg_color : image -> nat -> nat -> hsv.
Variable secure_filename : string -> string.
Variable path_join : string -> string -> string.
Variable UPLOAD_DIR : string.

Record request : Type := Request {
  content_type : option string;
  json : dict string (dict string string);
  files : dict string upload
}.

(** [cv2.imread] on the file system *)
Definition imread_from (fs : dict string upload) (image_path : string) : option image :=
  match dict_find fs image_path with
  | Some file => decode file
  | None => None
  end.

(** line 16: the test of the content type *)
Definition is_json (req : request) : bool :=
  match content_type req with
  | Some ct => String.prefix "application/json" ct
  | None => false
  end.

(** lines 26-27: where the upload of a face is saved *)
Definition upload_path (face : string) : string :=
  path_join UPLOAD_DIR (secure_filename (String.append face ".png")).

(** lines 22-29: the loop over [required_faces]; it stops with the face whose
    file is missing, and has by then saved the files of the faces before it. *)
Fixpoint store_uploads (req : request) (faces : list string)
    (fs : dict string upload) (image_paths : dict string string)
    : dict string upload * (dict string string + string) :=
  match faces with
  | [] => (fs, inl image_paths)
  | face :: faces' =>
      match dict_find (files req) face with
      | Some file =>
          if truthy file then
            store_uploads req faces' (dict_set fs (upload_path face) file)
                          (dict_set image_paths face (upload_path face))
          else (fs, inr face)
      | None => (fs, inr face)
      end
  end.

(** lines 14-33: the route, from the request and the file system to the file
    system it leaves and the response (or the exception that escapes). *)
Definition solve (req : request) (fs : dict string upload)
    : dict string upload * result response :=
  if is_json req then
    let image_paths := dict_get (json req) "images"%string [] in
    (fs,
     result ← solve_cube_from_images image (imread_from fs) avg_color image_paths;
     Ok (Response result 200))
  else
    match store_uploads req required_faces fs [] with
    | (fs, inr face) =>
        (fs, Ok (Response [("error", String.append "Missing image for face " face)]%string 400))
    | (fs, inl image_paths) =>
        (fs,
         result ← solve_cube_from_images image (imread_from fs) avg_color image_paths;
         Ok (Response result 200))
    end.
End Route.

(** ** Vocabulary of the statements *)

(** What one run of a loop body establishes: [P] if it ran to its end,
    [Q] if it broke out; it must not raise. *)
Definition body_post {S : Type} (r : result (control S)) (P Q : S -> Prop) : Prop :=
  match r with
  | Ok (Continue s) => P s
  | Ok (Break s) => Q s
  | Raise _ => False
  end.

(** 1 when the two symbols are the same, 0 otherwise *)
Definition same (x c : ascii) : Z := if decide (x = c) then 1 else 0.

(** The number of occurrences of a symbol in a sequence *)
Fixpoint occ (c : ascii) (l : list ascii) : Z :=
  match l with
  | [] => 0
  | x :: l' => same x c + occ c l'
  end.

(** Every symbol is one of the six *)
Definition six_only (l : list ascii) : Prop := Forall (fun x => x ∈ expected_colors) l.

(** Each of the six symbols occurs exactly nine times *)
Definition nine_each (l : list ascii) : Prop :=
  forall c, c ∈ expected_colors -> occ c l = 9.

(** The dictionary holds, for each of the six symbols, its number of
    occurrences in the list. *)
Definition counts_agree (l : list ascii) (d : dict ascii Z) : Prop :=
  forall c, c ∈ expected_colors -> dict_find d c = Some (occ c l).

(** What every stage of the global repair keeps: the length, the symbols that
    already stand at nine, and the alphabet. *)
Definition calm (l l' : list ascii) : Prop :=
  length l' = length l /\
  (forall c, occ c l = 9 -> occ c l' = 9) /\
  (six_only l -> six_only l').

(** The dictionary holds the number of occurrences of every symbol (a symbol
    that is no key counts as 0). *)
Definition tally (l : list ascii) (d : dict ascii Z) : Prop :=
  forall c, dict_get d c 0 = occ c l.

(** A face read as eight stickers [R] and one sticker [U], the [U] at
    position [k]. *)
Definition face_8R_1U (k : nat) : list ascii :=
  <[k:="U"%char]> (replicate 9 "R"%char).

(** The state [(face_colors, color_counts, excess_count)] of the first pass
    (lines 155-164) when its loop reaches index [i]. *)
Definition spread_state_at (face_colors : list ascii) (i : nat)
    : result (list ascii * dict ascii Z * Z) :=
  most_common ← max_item (count_colors face_colors);
  for_in (range i)
         (spread_at most_common (filter (fun c => c ≠ fst most_common) target_colors))
         (face_colors, count_colors face_colors, snd most_common - 3).

(** A face is present in the mapping and its image loads. *)
Definition readable {image : Type} (imread : string -> option image)
    (image_paths : dict string string) (face : string) : Prop :=
  exists image_path img,
    dict_find image_paths face = Some image_path /\ imread image_path = Some img.

(** A small world to run the pipeline in: an image is one colour all over,
    every file holds a white image, and the file [broken.png] does not load. *)
Definition flat_avg (img : hsv) (row col : nat) : hsv := img.

Definition studio_imread (image_path : string) : option hsv :=
  if decide (image_path = "broken.png"%string) then None else Some (HSV 0 0 255).

(** One step of the global repair: the sticker at one position goes from a
    symbol on more than nine stickers to a symbol on fewer than nine. *)
Inductive retarget (l l' : list ascii) : Prop :=
| retarget_at (i : nat) (x y : ascii) :
    l !! i = Some x -> x ∈ expected_colors -> y ∈ expected_colors ->
    9 < occ x l -> occ y l < 9 -> l' = <[i:=y]> l -> retarget l l'.

(** The number of positions at which two sequences differ *)
Fixpoint differ (l0 l : list ascii) : Z :=
  match l0, l with
  | x :: l0', y :: l' => (1 - same x y) + differ l0' l'
  | _, _ => 0
  end.

(** The stickers in excess: for each of the six symbols, its occurrences
    beyond nine *)
Definition over (l : list ascii) : Z :=
  Z.max 0 (occ "U" l - 9) + Z.max 0 (occ "R" l - 9) + Z.max 0 (occ "F" l - 9) +
  Z.max 0 (occ "D" l - 9) + Z.max 0 (occ "L" l - 9) + Z.max 0 (occ "B" l - 9).

(** The file system after the uploads of the given faces have been saved
    (line 28), and the mapping of those faces to their paths (line 29). *)
Definition saved_uploads {upload : Type} (path_of : string -> string)
    (files : dict string upload) (faces : list string) (fs : dict string upload)
    : dict string upload :=
  foldl (fun fs face =>
           match dict_find files face with
           | Some file => dict_set fs (path_of face) file
           | None => fs
           end) fs faces.

Definition uploaded_paths (path_of : string -> string) (faces : list string)
    (image_paths : dict string string) : dict string string :=
  foldl (fun image_paths face => dict_set image_paths face (path_of face)) image_paths faces.

(** The request carries a file for the face and the file counts as true. *)
Definition sent {upload : Type} (truthy : upload -> bool) (files : dict string upload)
    (face : string) : Prop :=
  exists file, dict_find files face = Some file /\ truthy file = true.

(** The request carries no file for the face, or one that counts as false. *)
Definition not_sent {upload : Type} (truthy : upload -> bool) (files : dict string upload)
    (face : string) : Prop :=
  match dict_find files face with
  | Some file => truthy file = false
  | None => True
  end.

(** A small world to run the route in: an upload is the image it holds, every
    upload counts as true and decodes to itself, and paths are joined with a
    slash. *)
Definition slash_join (dir name : string) : string :=
  String.append dir (String.append "/" name).

Definition studio_route (req : request hsv) (fs : dict string hsv)
    : dict string hsv * result response :=
  solve hsv hsv (fun _ => true) Some flat_avg (fun name => name) slash_join
        "uploaded_images" req fs.

Definition studio_path (face : string) : string :=
  upload_path (fun name => name) slash_join "uploaded_images" face.

(** The face as the first pass (lines 150-164) leaves it; the pass runs only
    when the most common colour is on more than 7 stickers. *)
Definition after_first_pass (face_colors : list ascii) : result (list ascii) :=
  most_common ← max_item (count_colors face_colors);
  if 7 <? snd most_common then
    '(face_colors, _, _) ←
      spread_most_common most_common (face_colors, count_colors face_colors);
    Ok face_colors
  else Ok face_colors.



(** * Properties *)

(** ** Loop rules *)

Section LoopRules.
Context {A S : Type}.

Lemma for_in_seq_inv (I : nat -> S -> Prop) (Q : S -> Prop)
    (body : nat -> S -> result (control S)) (n a : nat) (s : S) :
  I a s ->
  (forall i s, (a <= i < a + n)%nat -> I i s -> body_post (body i s) (I (Datatypes.S i)) Q) ->
  exists s', for_in (seq a n) body s = Ok s' /\ (I (a + n)%nat s' \/ Q s').
Proof.
  revert a s. induction n as [|n IH]; intros a s Ha Hstep; simpl.
  - exists s. split; [reflexivity|]. left. by rewrite Nat.add_0_r.
  - specialize (Hstep a s ltac:(lia) Ha) as Hb. unfold body_post in Hb.
    destruct (body a s) as [[s1|s1]|e]; [| |contradiction].
    + destruct (IH (Datatypes.S a) s1 Hb) as (s' & Hs' & Hpost).
      { intros i s2 Hi. apply Hstep. lia. }
      exists s'. split; [exact Hs'|].
      by replace (a + Datatypes.S n)%nat with (Datatypes.S a + n)%nat by lia.
    + exists s1. split; [reflexivity|]. by right.
Qed.

Lemma for_range_inv (I : nat -> S -> Prop) (Q : S -> Prop)
    (body : nat -> S -> result (control S)) (n : nat) (s : S) :
  I 0%nat s ->
  (forall i s, (i < n)%nat -> I i s -> body_post (body i s) (I (Datatypes.S i)) Q) ->
  exists s', for_in (range n) body s = Ok s' /\ (I n s' \/ Q s').
Proof.
  intros H0 Hstep.
  destruct (for_in_seq_inv I Q body n 0 s H0) as (s' & Hs' & Hpost).
  - intros i s1 Hi. apply Hstep. lia.
  - exists s'. by split.
Qed.

(** The same rule for a loop over a list; the invariant sees the elements
    already visited. *)
Lemma for_in_list_inv (I : list A -> S -> Prop) (Q : S -> Prop)
    (body : A -> S -> result (control S)) (xs : list A) (s : S) :
  I [] s ->
  (forall pre x post s, xs = pre ++ x :: post -> I pre s ->
     body_post (body x s) (I (pre ++ [x])) Q) ->
  exists s', for_in xs body s = Ok s' /\ (I xs s' \/ Q s').
Proof.
  intros H0 Hstep.
  assert (Hgen : forall post pre s, xs = pre ++ post -> I pre s ->
            exists s', for_in post body s = Ok s' /\ (I xs s' \/ Q s')).
  { induction post as [|x post IH]; intros pre s1 Hxs Hpre; simpl.
    - exists s1. split; [reflexivity|]. left. rewrite Hxs, app_nil_r. exact Hpre.
    - specialize (Hstep pre x post s1 Hxs Hpre) as Hb. unfold body_post in Hb.
      destruct (body x s1) as [[s2|s2]|e]; [| |contradiction].
      + apply (IH (pre ++ [x])); [|exact Hb]. by rewrite <- app_assoc.
      + exists s2. split; [reflexivity|]. by right. }
  by apply (Hgen xs []).
Qed.
End LoopRules.

(** ** Dictionaries *)

Section DictFacts.
Context {K V : Type} `{EqDecision K} `{KeyRepr K}.
Implicit Types (d : dict K V) (k : K) (v : V).

Lemma dict_find_set d k v k' :
  dict_find (dict_set d k v) k' = if decide (k = k') then Some v else dict_find d k'.
Proof.
  induction d as [|[k0 v0] d IH]; simpl.
  - reflexivity.
  - destruct (decide (k0 = k)) as [->|Hne]; simpl.
    + destruct (decide (k = k')); reflexivity.
    + destruct (decide (k0 = k')) as [->|Hne'].
      * destruct (decide (k = k')); [congruence|reflexivity].
      * exact IH.
Qed.

Lemma dict_find_set_eq d k v : dict_find (dict_set d k v) k = Some v.
Proof. rewrite dict_find_set. by destruct (decide (k = k)). Qed.

Lemma dict_find_set_ne d k v k' : k <> k' -> dict_find (dict_set d k v) k' = dict_find d k'.
Proof. intros Hne. rewrite dict_find_set. by destruct (decide (k = k')). Qed.

Lemma dict_find_Some_elem d k v : dict_find d k = Some v -> (k, v) ∈ d.
Proof.
  induction d as [|[k0 v0] d IH]; simpl; [discriminate|].
  destruct (decide (k0 = k)) as [->|Hne].
  - intros [= ->]. left.
  - intros Hf. right. by apply IH.
Qed.

Lemma dict_find_is_Some d k : is_Some (dict_find d k) <-> k ∈ dict_keys d.
Proof.
  induction d as [|[k0 v0] d IH]; simpl.
  - split; [intros [? [=]]|intros Hin; inversion Hin].
  - destruct (decide (k0 = k)) as [->|Hne].
    + split; [intros _; left|intros _; by eexists].
    + rewrite IH. split; [intros Hin; by right|].
      intros Hin. inversion Hin; subst; [congruence|assumption].
Qed.

(** Assigning to a key that is present keeps the keys and their order. *)
Lemma dict_keys_set_present d k v :
  is_Some (dict_find d k) -> dict_keys (dict_set d k v) = dict_keys d.
Proof.
  induction d as [|[k0 v0] d IH]; simpl.
  - intros [? [=]].
  - destruct (decide (k0 = k)) as [->|Hne]; simpl; [reflexivity|].
    intros Hs. f_equal. by apply IH.
Qed.

Lemma dict_keys_set_absent d k v :
  dict_find d k = None -> dict_keys (dict_set d k v) = dict_keys d ++ [k].
Proof.
  induction d as [|[k0 v0] d IH]; simpl; [reflexivity|].
  destruct (decide (k0 = k)) as [->|Hne]; simpl; [discriminate|].
  intros Hs. f_equal. by apply IH.
Qed.

Lemma dict_getitem_Some d k v : dict_find d k = Some v -> dict_getitem d k = Ok v.
Proof. unfold dict_getitem. by intros ->. Qed.

(** A key has one value: the pair found in the list is the one [dict_find]
    returns, when keys are unique. *)
Lemma dict_elem_find d k v : NoDup (dict_keys d) -> (k, v) ∈ d -> dict_find d k = Some v.
Proof.
  induction d as [|[k0 v0] d IH]; simpl; intros Hnd Hin.
  - inversion Hin.
  - apply NoDup_cons in Hnd as [Hnotin Hnd].
    apply elem_of_cons in Hin as [[= -> ->]|Hin].
    + by destruct (decide (k0 = k0)).
    + destruct (decide (k0 = k)) as [->|Hne]; [|by apply IH].
      exfalso. apply Hnotin. unfold dict_keys.
      apply list_elem_of_fmap. by exists (k, v).
Qed.

Lemma dict_keys_set_NoDup d k v : NoDup (dict_keys d) -> NoDup (dict_keys (dict_set d k v)).
Proof.
  intros Hnd. destruct (dict_find d k) as [v0|] eqn:Hf.
  - rewrite dict_keys_set_present; [exact Hnd|by eexists].
  - rewrite dict_keys_set_absent by exact Hf.
    apply NoDup_app. split; [exact Hnd|]. split; [|apply NoDup_singleton].
    intros x Hx Hx'. apply list_elem_of_singleton in Hx' as ->.
    apply dict_find_is_Some in Hx. rewrite Hf in Hx. by destruct Hx.
Qed.
End DictFacts.

Lemma dict_iadd_Some {K : Type} `{EqDecision K} `{KeyRepr K} (d : dict K Z) k v delta :
  dict_find d k = Some v -> dict_iadd d k delta = Ok (dict_set d k (v + delta)).
Proof. unfold dict_iadd, dict_getitem. by intros ->. Qed.

(** ** Counting occurrences *)

Lemma same_refl c : same c c = 1.
Proof. unfold same. by destruct (decide (c = c)). Qed.

Lemma same_ne x c : x <> c -> same x c = 0.
Proof. unfold same. by destruct (decide (x = c)). Qed.

Lemma same_range x c : 0 <= same x c <= 1.
Proof. unfold same. destruct (decide (x = c)); lia. Qed.

Lemma occ_nonneg c l : 0 <= occ c l.
Proof. induction l as [|x l IH]; simpl; [lia|]. pose proof (same_range x c). lia. Qed.


Lemma occ_le_length c l : occ c l <= Z.of_nat (length l).
Proof. induction l as [|x l IH]; simpl; [lia|]. pose proof (same_range x c). lia. Qed.

Lemma occ_pos_elem c l : 0 < occ c l <-> c ∈ l.
Proof.
  induction l as [|x l IH]; simpl.
  - split; [lia|intros Hin; inversion Hin].
  - rewrite elem_of_cons. unfold same. destruct (decide (x = c)) as [->|Hne].
    + pose proof (occ_nonneg c l). split; [by left|lia].
    + rewrite <- IH. split; [intros; right; lia|intros [?|?]; [congruence|lia]].
Qed.

Lemma occ_zero_not_elem c l : occ c l = 0 <-> c ∉ l.
Proof. rewrite <- occ_pos_elem. pose proof (occ_nonneg c l). lia. Qed.

(** Two different symbols share the positions of the sequence. *)
Lemma occ_two_le_length a b l : a <> b -> occ a l + occ b l <= Z.of_nat (length l).
Proof.
  intros Hab. induction l as [|x l IH]; simpl; [lia|].
  unfold same. destruct (decide (x = a)), (decide (x = b)); subst; try congruence; lia.
Qed.

(** [l[i] = y] moves one occurrence from the old symbol to the new one. *)
Lemma occ_insert c l i x y :
  l !! i = Some x -> occ c (<[i:=y]> l) = occ c l - same x c + same y c.
Proof.
  revert i. induction l as [|z l IH]; intros [|i]; simpl; try discriminate.
  - intros [= ->]. lia.
  - intros Hi. rewrite (IH i Hi). lia.
Qed.

(** The occurrences from position [i] on: the one at [i], then the rest. *)
Lemma occ_drop_lookup c l i x :
  l !! i = Some x -> occ c (drop i l) = same x c + occ c (drop (S i) l).
Proof.
  revert i. induction l as [|z l IH]; intros [|i]; simpl; try discriminate.
  - intros [= ->]. by rewrite drop_0.
  - intros Hi. by apply IH.
Qed.

Lemma drop_S_insert {A : Type} (l : list A) i y : drop (S i) (<[i:=y]> l) = drop (S i) l.
Proof.
  revert i. induction l as [|z l IH]; intros [|i]; simpl; try reflexivity. apply IH.
Qed.

Lemma occ_drop_all c l : occ c (drop (length l) l) = 0.
Proof. by rewrite drop_all. Qed.

(** In a sequence over the six symbols, the six counts add up to its length. *)
Lemma occ_six_sum l :
  six_only l ->
  occ "U" l + occ "R" l + occ "F" l + occ "D" l + occ "L" l + occ "B" l
  = Z.of_nat (length l).
Proof.
  induction 1 as [|x l Hx _ IH]; simpl; [reflexivity|].
  unfold expected_colors in Hx.
  repeat (apply elem_of_cons in Hx as [->|Hx]); [..|inversion Hx];
    unfold same; simpl decide; simpl; lia.
Qed.

(** In any sequence the six counts add up to at most its length. *)
Lemma occ_six_sum_le l :
  occ "U" l + occ "R" l + occ "F" l + occ "D" l + occ "L" l + occ "B" l
  <= Z.of_nat (length l).
Proof.
  induction l as [|x l IH]; simpl; [lia|].
  unfold same.
  destruct (decide (x = "U"%char)) as [->|?]; [simpl decide; simpl; lia|].
  destruct (decide (x = "R"%char)) as [->|?]; [simpl decide; simpl; lia|].
  destruct (decide (x = "F"%char)) as [->|?]; [simpl decide; simpl; lia|].
  destruct (decide (x = "D"%char)) as [->|?]; [simpl decide; simpl; lia|].
  destruct (decide (x = "L"%char)) as [->|?]; [simpl decide; simpl; lia|].
  destruct (decide (x = "B"%char)) as [->|?]; [simpl decide; simpl; lia|].
  lia.
Qed.

(** ** The counting loop *)

Lemma count_loop_find (d : dict ascii Z) l c :
  dict_find (foldl (fun d color => dict_set d color (dict_get d color 0 + 1)) d l) c
  = match dict_find d c with
    | Some v => Some (v + occ c l)
    | None => if decide (c ∈ l) then Some (occ c l) else None
    end.
Proof.
  revert d. induction l as [|x l IH]; intros d; simpl.
  - destruct (dict_find d c); [f_equal; lia|].
    destruct (decide (c ∈ [])) as [Hin|]; [inversion Hin|reflexivity].
  - rewrite IH, dict_find_set. unfold same, dict_get.
    destruct (decide (x = c)) as [->|Hne].
    + destruct (dict_find d c) as [v|]; [f_equal; lia|].
      destruct (decide (c ∈ c :: l)) as [|Hnin]; [f_equal; lia|].
      exfalso. apply Hnin. left.
    + destruct (dict_find d c) as [v|]; [f_equal; lia|].
      destruct (decide (c ∈ l)) as [Hin|Hnin], (decide (c ∈ x :: l)) as [Hin'|Hnin'];
        try (f_equal; lia).
      * exfalso. apply Hnin'. by right.
      * exfalso. apply elem_of_cons in Hin' as [?|?]; [congruence|contradiction].
Qed.

Lemma count_colors_find l c :
  dict_find (count_colors l) c = if decide (c ∈ l) then Some (occ c l) else None.
Proof. unfold count_colors. by rewrite count_loop_find. Qed.

Lemma count_colors_get l c : dict_get (count_colors l) c 0 = occ c l.
Proof.
  unfold dict_get. rewrite count_colors_find.
  destruct (decide (c ∈ l)) as [|Hnin]; [reflexivity|].
  symmetry. by apply occ_zero_not_elem.
Qed.

Lemma count_colors_keys l c : c ∈ dict_keys (count_colors l) <-> c ∈ l.
Proof.
  rewrite <- dict_find_is_Some, count_colors_find.
  destruct (decide (c ∈ l)) as [Hin|Hnin]; split; intros Hx; try done;
    try (by eexists); try (by destruct Hx).
Qed.

Lemma count_colors_NoDup l : NoDup (dict_keys (count_colors l)).
Proof.
  unfold count_colors.
  assert (Hgen : forall d : dict ascii Z, NoDup (dict_keys d) ->
    NoDup (dict_keys (foldl (fun d color => dict_set d color (dict_get d color 0 + 1)) d l))).
  { induction l as [|x l IH]; intros d Hd; simpl; [exact Hd|].
    apply IH. by apply dict_keys_set_NoDup. }
  apply Hgen. constructor.
Qed.

(** ** [validate_and_fix_cube_state]: the dictionary before the repair *)

Lemma add_missing_loop_find (d : dict ascii Z) cs c :
  dict_find (foldl (fun d color => if dict_mem d color then d else dict_set d color 0) d cs) c
  = match dict_find d c with
    | Some v => Some v
    | None => if decide (c ∈ cs) then Some 0 else None
    end.
Proof.
  revert d. induction cs as [|x cs IH]; intros d; simpl.
  - destruct (dict_find d c); [reflexivity|].
    destruct (decide (c ∈ [])) as [Hin|]; [inversion Hin|reflexivity].
  - rewrite IH. unfold dict_mem.
    destruct (dict_find d x) as [vx|] eqn:Hx.
    + destruct (dict_find d c) as [v|] eqn:Hc; [reflexivity|].
      destruct (decide (c ∈ cs)) as [Hin|Hnin], (decide (c ∈ x :: cs)) as [Hin'|Hnin'];
        try reflexivity.
      * exfalso. apply Hnin'. by right.
      * exfalso. apply elem_of_cons in Hin' as [?|?]; [congruence|contradiction].
    + rewrite dict_find_set. destruct (decide (x = c)) as [->|Hne].
      * rewrite Hx. destruct (decide (c ∈ c :: cs)) as [|Hnin]; [reflexivity|].
        exfalso. apply Hnin. left.
      * destruct (dict_find d c) as [v|] eqn:Hc; [reflexivity|].
        destruct (decide (c ∈ cs)) as [Hin|Hnin], (decide (c ∈ x :: cs)) as [Hin'|Hnin'];
          try reflexivity.
        -- exfalso. apply Hnin'. by right.
        -- exfalso. apply elem_of_cons in Hin' as [?|?]; [congruence|contradiction].
Qed.

Lemma add_missing_NoDup (d : dict ascii Z) :
  NoDup (dict_keys d) -> NoDup (dict_keys (add_missing d)).
Proof.
  unfold add_missing. generalize expected_colors as cs.
  intros cs. revert d. induction cs as [|x cs IH]; intros d Hd; simpl; [exact Hd|].
  apply IH. destruct (dict_mem d x); [exact Hd|]. by apply dict_keys_set_NoDup.
Qed.

(** After lines 61-71 the dictionary holds, for each of the six symbols, its
    number of occurrences in the string. *)
Lemma initial_counts_six l c :
  c ∈ expected_colors -> dict_find (add_missing (count_colors l)) c = Some (occ c l).
Proof.
  intros Hc. unfold add_missing. rewrite add_missing_loop_find, count_colors_find.
  destruct (decide (c ∈ l)) as [|Hnin]; [reflexivity|].
  destruct (decide (c ∈ expected_colors)); [|contradiction].
  f_equal. symmetry. by apply occ_zero_not_elem.
Qed.

(** Every value of that dictionary is the count of its key. *)
Lemma initial_counts_values l k v :
  (k, v) ∈ add_missing (count_colors l) -> v = occ k l /\ (k ∈ l \/ k ∈ expected_colors).
Proof.
  intros Hin.
  apply dict_elem_find in Hin; [|apply add_missing_NoDup, count_colors_NoDup].
  unfold add_missing in Hin. rewrite add_missing_loop_find, count_colors_find in Hin.
  destruct (decide (k ∈ l)) as [Hk|Hk].
  - injection Hin as <-. split; [reflexivity|by left].
  - destruct (decide (k ∈ expected_colors)); [|discriminate].
    injection Hin as <-. split; [|by right]. symmetry. by apply occ_zero_not_elem.
Qed.

Lemma needs_fixing_false (d : dict ascii Z) :
  needs_fixing d = false <-> forall k v, (k, v) ∈ d -> v = 9.
Proof.
  unfold needs_fixing, dict_values. induction d as [|[k0 v0] d IH]; simpl.
  - split; [intros _ k v Hin; inversion Hin|reflexivity].
  - rewrite orb_false_iff, IH, negb_false_iff, Z.eqb_eq. split.
    + intros [-> Hd] k v Hin. apply elem_of_cons in Hin as [[= -> ->]|Hin]; [reflexivity|].
      by apply (Hd k).
    + intros Hall. split; [apply (Hall k0); left|].
      intros k v Hin. apply (Hall k). by right.
Qed.

(** ** [validate_and_fix_cube_state]: the repair loops *)

(** Run the monadic binds whose first computation is known. *)
Ltac run := unfold mbind, result_bind; cbv beta iota.

Ltac six_mem :=
  unfold expected_colors; repeat first [apply list_elem_of_here | apply list_elem_of_further].

(** Split a membership in the six symbols into its six cases. *)
Ltac six_cases H :=
  unfold expected_colors in H;
  repeat (apply elem_of_cons in H as [->|H]); [..|by inversion H].

(** Instantiate a fact about the six symbols at each of them. *)
Ltac six_inst H :=
  pose proof (H "U"%char ltac:(six_mem));
  pose proof (H "R"%char ltac:(six_mem));
  pose proof (H "F"%char ltac:(six_mem));
  pose proof (H "D"%char ltac:(six_mem));
  pose proof (H "L"%char ltac:(six_mem));
  pose proof (H "B"%char ltac:(six_mem)).

Lemma calm_refl l : calm l l.
Proof. by repeat split. Qed.

Lemma calm_trans l1 l2 l3 : calm l1 l2 -> calm l2 l3 -> calm l1 l3.
Proof.
  intros (Hl1 & Hn1 & Hs1) (Hl2 & Hn2 & Hs2). repeat split.
  - congruence.
  - intros c Hc. by apply Hn2, Hn1.
  - intros Hs. by apply Hs2, Hs1.
Qed.

(** One sticker changes from [x] to [y]: neither stood at nine. *)
Lemma calm_insert l i x y :
  l !! i = Some x -> occ x l <> 9 -> occ y l <> 9 ->
  y ∈ expected_colors -> calm l (<[i:=y]> l).
Proof.
  intros Hi Hx Hy9 Hy. repeat split.
  - apply length_insert.
  - intros c Hc. rewrite (occ_insert c l i x y Hi). unfold same.
    destruct (decide (x = c)), (decide (y = c)); subst; try congruence; lia.
  - intros Hs. by apply Forall_insert.
Qed.

(** The two count updates that follow [cube_list[i] = y]. *)
Lemma retarget_counts l d i x y :
  counts_agree l d -> l !! i = Some x ->
  x ∈ expected_colors -> y ∈ expected_colors -> x <> y ->
  exists d1 d2,
    dict_iadd d x (-1) = Ok d1 /\ dict_iadd d1 y 1 = Ok d2 /\
    counts_agree (<[i:=y]> l) d2.
Proof.
  intros Hagree Hi Hx Hy Hne.
  exists (dict_set d x (occ x l + -1)),
         (dict_set (dict_set d x (occ x l + -1)) y (occ y l + 1)).
  split; [apply dict_iadd_Some, Hagree, Hx|]. split.
  - apply dict_iadd_Some. rewrite dict_find_set_ne by exact Hne. apply Hagree, Hy.
  - intros c Hc. rewrite !dict_find_set, (occ_insert c l i x y Hi), (Hagree c Hc).
    unfold same.
    destruct (decide (y = c)), (decide (x = c)); subst; try congruence; f_equal; lia.
Qed.

Lemma list_setitem_Some {A : Type} (l : list A) i x y :
  l !! i = Some x -> list_setitem l i y = Ok (<[i:=y]> l).
Proof.
  intros Hi. unfold list_setitem.
  destruct (decide (i < length l)%nat) as [|Hge]; [reflexivity|].
  exfalso. apply Hge. by apply lookup_lt_Some in Hi.
Qed.

Lemma list_getitem_Some {A : Type} (l : list A) i x :
  l !! i = Some x -> list_getitem l i = Ok x.
Proof. unfold list_getitem. by intros ->. Qed.

(** Lines 90-96: while the target has more than nine stickers, the scan of
    the six symbols finds one with fewer than nine and retargets position [i]. *)
Lemma find_replacement l d e i t :
  length l = 54%nat -> counts_agree l d -> t ∈ expected_colors ->
  l !! i = Some t -> 9 < occ t l ->
  exists r d', r ∈ expected_colors /\ occ r l < 9 /\
    counts_agree (<[i:=r]> l) d' /\
    for_in expected_colors (try_replacement t i) (l, d, e) = Ok (<[i:=r]> l, d', e - 1).
Proof.
  intros Hlen Hagree Ht Hi Hgt.
  destruct (for_in_list_inv
    (fun pre st => st = (l, d, e) /\ forall c, c ∈ pre -> 9 <= occ c l)
    (fun st => exists r d', r ∈ expected_colors /\ occ r l < 9 /\
       counts_agree (<[i:=r]> l) d' /\ st = (<[i:=r]> l, d', e - 1))
    (try_replacement t i) expected_colors (l, d, e)) as (s' & Hs' & [[_ Hall]|HQ]).
  - split; [reflexivity|]. intros c Hc. inversion Hc.
  - intros pre r post st Hsplit [-> Hpre]. unfold try_replacement, body_post.
    assert (Hr : r ∈ expected_colors).
    { rewrite Hsplit. apply elem_of_app. right. left. }
    rewrite (dict_getitem_Some _ _ _ (Hagree r Hr)). run.
    destruct (occ r l <? 9) eqn:Hlt.
    + apply Z.ltb_lt in Hlt.
      rewrite (list_setitem_Some l i t r Hi). run.
      destruct (retarget_counts l d i t r Hagree Hi Ht Hr) as (d1 & d2 & H1 & H2 & Hagree');
        [intros ->; lia|].
      rewrite H1. run. rewrite H2. run.
      exists r, d2. by repeat split.
    + apply Z.ltb_ge in Hlt. split; [reflexivity|].
      intros c Hc. apply elem_of_app in Hc as [Hc|Hc]; [by apply Hpre|].
      apply list_elem_of_singleton in Hc as ->. exact Hlt.
  - exfalso. pose proof (occ_six_sum_le l) as Hsum. six_inst Hall. six_cases Ht; lia.
  - destruct HQ as (r & d' & Hr & Hlt & Hagree' & ->). by exists r, d'.
Qed.

(** Lines 86-96: the too-many branch brings the target down to nine. *)
Lemma shed_excess_loop l d t :
  length l = 54%nat -> counts_agree l d -> t ∈ expected_colors -> 9 < occ t l ->
  exists l' d' e',
    for_in (range (length l)) (shed_excess_at t) (l, d, occ t l - 9) = Ok (l', d', e') /\
    length l' = 54%nat /\ counts_agree l' d' /\ calm l l' /\ occ t l' = 9.
Proof.
  intros Hlen Hagree Ht Hgt.
  destruct (for_range_inv
    (fun i st => let '(l1, d1, e1) := st in
       length l1 = 54%nat /\ counts_agree l1 d1 /\ calm l l1 /\
       e1 = occ t l1 - 9 /\ 0 <= e1 /\ occ t l1 - 9 <= occ t (drop i l1))
    (fun _ => False)
    (shed_excess_at t) (length l) (l, d, occ t l - 9)) as (s' & Hs' & [HI|[]]).
  - rewrite drop_0. split_and!; try apply calm_refl; try done; lia.
  - intros i [[l1 d1] e1] Hi (Hlen1 & Hagree1 & Hcalm & He & Hpos & Hdrop).
    destruct (lookup_lt_is_Some_2 l1 i ltac:(lia)) as [x Hx].
    unfold shed_excess_at, body_post.
    rewrite (list_getitem_Some l1 i x Hx). run.
    pose proof (occ_drop_lookup t l1 i x Hx) as Hsplit.
    destruct (bool_decide (x = t) && (0 <? e1)) eqn:Hcond.
    + apply andb_true_iff in Hcond as [Hxt Hlt].
      apply bool_decide_eq_true in Hxt as ->. apply Z.ltb_lt in Hlt.
      destruct (find_replacement l1 d1 e1 i t Hlen1 Hagree1 Ht Hx ltac:(lia))
        as (r & d' & Hr & Hrlt & Hagree' & ->).
      run. rewrite length_insert, drop_S_insert.
      rewrite (occ_insert t l1 i t r Hx), same_refl in *.
      rewrite (same_ne r t) by (intros ->; lia).
      split_and!; try done; try lia.
      eapply calm_trans; [exact Hcalm|].
      apply (calm_insert l1 i t r Hx); [lia|lia|exact Hr].
    + run. split_and!; try done.
      apply andb_false_iff in Hcond as [Hxt|Hlt].
      * apply bool_decide_eq_false in Hxt. rewrite (same_ne x t Hxt) in Hsplit. lia.
      * apply Z.ltb_ge in Hlt. pose proof (occ_nonneg t (drop (S i) l1)). lia.
  - destruct s' as [[l' d'] e']. destruct HI as (Hlen' & Hagree' & Hcalm & He & Hpos & Hdrop).
    exists l', d', e'. replace (length l) with (length l') in Hdrop by congruence.
    rewrite occ_drop_all in Hdrop.
    split_and!; try done. lia.
Qed.

(** Lines 105-112: the scan of the six symbols retargets position [i] to the
    target exactly when the sticker there belongs to a symbol in excess. *)
Lemma find_excess l d nd i t x :
  counts_agree l d -> t ∈ expected_colors -> l !! i = Some x -> occ t l < 9 ->
  (for_in expected_colors (try_excess_color t i) (l, d, nd) = Ok (l, d, nd) /\
   ~ (x ∈ expected_colors /\ 9 < occ x l)) \/
  (exists d', x ∈ expected_colors /\ 9 < occ x l /\ counts_agree (<[i:=t]> l) d' /\
     for_in expected_colors (try_excess_color t i) (l, d, nd) = Ok (<[i:=t]> l, d', nd - 1)).
Proof.
  intros Hagree Ht Hi Hlt.
  destruct (for_in_list_inv
    (fun pre st => st = (l, d, nd) /\ forall c, c ∈ pre -> ~ (9 < occ c l /\ x = c))
    (fun st => exists d', x ∈ expected_colors /\ 9 < occ x l /\
       counts_agree (<[i:=t]> l) d' /\ st = (<[i:=t]> l, d', nd - 1))
    (try_excess_color t i) expected_colors (l, d, nd)) as (s' & Hs' & [[-> Hall]|HQ]).
  - split; [reflexivity|]. intros c Hc. inversion Hc.
  - intros pre c post st Hsplit [-> Hpre]. unfold try_excess_color, body_post.
    assert (Hc : c ∈ expected_colors).
    { rewrite Hsplit. apply elem_of_app. right. left. }
    assert (Hskip : forall c', c' ∈ pre ++ [c] -> ~ (9 < occ c l /\ x = c) ->
                      ~ (9 < occ c' l /\ x = c')).
    { intros c' Hc' Hno. apply elem_of_app in Hc' as [Hc'|Hc']; [by apply Hpre|].
      by apply list_elem_of_singleton in Hc' as ->. }
    rewrite (dict_getitem_Some _ _ _ (Hagree c Hc)). run.
    destruct (9 <? occ c l) eqn:Hgt.
    + apply Z.ltb_lt in Hgt. rewrite (list_getitem_Some l i x Hi). run.
      case_bool_decide as Hxc.
      * subst c. rewrite (list_setitem_Some l i x t Hi). run.
        destruct (retarget_counts l d i x t Hagree Hi Hc Ht) as (d1 & d2 & H1 & H2 & Hagree');
          [intros ->; lia|].
        rewrite H1. run. rewrite H2. run. exists d2. by split_and!.
      * split; [reflexivity|]. intros c' Hc'. apply Hskip; [exact Hc'|]. intros [_ ?]. done.
    + apply Z.ltb_ge in Hgt. split; [reflexivity|].
      intros c' Hc'. apply Hskip; [exact Hc'|]. lia.
  - left. split; [exact Hs'|]. intros [Hx Hgt]. by apply (Hall x Hx).
  - right. destruct HQ as (d' & Hx & Hgt & Hagree' & ->). by exists d'.
Qed.

(** Lines 99-112: the too-few branch brings the target up to nine, if the
    string holds only the six symbols. *)
Lemma fill_need_loop l d t :
  length l = 54%nat -> counts_agree l d -> t ∈ expected_colors -> occ t l < 9 ->
  exists l' d' nd',
    for_in (range (length l)) (fill_need_at t) (l, d, 9 - occ t l) = Ok (l', d', nd') /\
    length l' = 54%nat /\ counts_agree l' d' /\ calm l l' /\
    (six_only l -> occ t l' = 9).
Proof.
  intros Hlen Hagree Ht Hlt.
  destruct (for_range_inv
    (fun i st => let '(l1, d1, nd1) := st in
       length l1 = 54%nat /\ counts_agree l1 d1 /\ calm l l1 /\
       nd1 = 9 - occ t l1 /\ 0 <= nd1 /\
       forall c, c ∈ expected_colors -> occ c l1 - 9 <= occ c (drop i l1))
    (fun st => let '(l1, d1, nd1) := st in
       length l1 = 54%nat /\ counts_agree l1 d1 /\ calm l l1 /\ occ t l1 = 9)
    (fill_need_at t) (length l) (l, d, 9 - occ t l)) as (s' & Hs' & HIQ).
  - rewrite drop_0. split_and!; try apply calm_refl; try done; lia.
  - intros i [[l1 d1] nd1] Hi (Hlen1 & Hagree1 & Hcalm & Hnd & Hpos & Hdrop).
    unfold fill_need_at, body_post.
    destruct (nd1 <=? 0) eqn:Hdone.
    { apply Z.leb_le in Hdone. split_and!; try done. lia. }
    apply Z.leb_gt in Hdone.
    destruct (lookup_lt_is_Some_2 l1 i ltac:(lia)) as [x Hx].
    destruct (find_excess l1 d1 nd1 i t x Hagree1 Ht Hx ltac:(lia))
      as [[-> Hno]|(d' & Hxin & Hxgt & Hagree' & ->)]; run.
    + split_and!; try done. intros c Hc.
      specialize (Hdrop c Hc). rewrite (occ_drop_lookup c l1 i x Hx) in Hdrop.
      unfold same in Hdrop. destruct (decide (x = c)) as [->|Hne]; [|lia].
      pose proof (occ_nonneg c (drop (S i) l1)).
      destruct (Z_lt_le_dec 9 (occ c l1)) as [Hgt|Hle]; [|lia].
      exfalso. by apply Hno.
    + assert (Hxt : x <> t) by (intros ->; lia).
      rewrite length_insert.
      split_and!; try done.
      * eapply calm_trans; [exact Hcalm|].
        apply (calm_insert l1 i x t Hx); [lia|lia|exact Ht].
      * rewrite (occ_insert t l1 i x t Hx), same_refl, (same_ne x t Hxt). lia.
      * lia.
      * intros c Hc. rewrite drop_S_insert, (occ_insert c l1 i x t Hx).
        specialize (Hdrop c Hc). rewrite (occ_drop_lookup c l1 i x Hx) in Hdrop.
        pose proof (occ_nonneg c (drop (S i) l1)).
        unfold same in *. destruct (decide (t = c)) as [<-|Htc].
        -- destruct (decide (x = t)); [congruence|]. lia.
        -- lia.
  - destruct s' as [[l' d'] nd']. exists l', d', nd'. split; [exact Hs'|].
    destruct HIQ as [(Hlen' & Hagree' & Hcalm & Hnd & Hpos & Hdrop)|(Hlen' & Hagree' & Hcalm & Hnine)].
    + split_and!; try done. intros Hsix.
      assert (Hle : forall c, c ∈ expected_colors -> occ c l' <= 9).
      { intros c Hc. specialize (Hdrop c Hc).
        replace (length l) with (length l') in Hdrop by congruence.
        rewrite occ_drop_all in Hdrop. lia. }
      destruct Hcalm as (_ & _ & Hsix').
      pose proof (occ_six_sum l' (Hsix' Hsix)) as Hsum. rewrite Hlen' in Hsum.
      six_inst Hle. six_cases Ht; lia.
    + by split_and!.
Qed.

(** Lines 81-112: one round of the outer loop. *)
Lemma fix_target_post l d t :
  length l = 54%nat -> counts_agree l d -> t ∈ expected_colors ->
  exists l' d',
    fix_target t (l, d) = Ok (Continue (l', d')) /\
    length l' = 54%nat /\ counts_agree l' d' /\ calm l l' /\
    (six_only l -> occ t l' = 9).
Proof.
  intros Hlen Hagree Ht. unfold fix_target.
  rewrite (dict_getitem_Some _ _ _ (Hagree t Ht)). run.
  destruct (9 <? occ t l) eqn:Hgt.
  - apply Z.ltb_lt in Hgt.
    destruct (shed_excess_loop l d t Hlen Hagree Ht Hgt)
      as (l' & d' & e' & -> & Hlen' & Hagree' & Hcalm & Hnine).
    exists l', d'. by split_and!.
  - apply Z.ltb_ge in Hgt. destruct (occ t l <? 9) eqn:Hlt.
    + apply Z.ltb_lt in Hlt.
      destruct (fill_need_loop l d t Hlen Hagree Ht Hlt)
        as (l' & d' & nd' & -> & Hlen' & Hagree' & Hcalm & Hnine).
      exists l', d'. by split_and!.
    + apply Z.ltb_ge in Hlt. exists l, d.
      split_and!; try apply calm_refl; try done. intros _. lia.
Qed.

(** Lines 81-112: the whole redistribution. *)
Lemma repair_loop l d :
  length l = 54%nat -> counts_agree l d ->
  exists l' d',
    for_in expected_colors fix_target (l, d) = Ok (l', d') /\
    length l' = 54%nat /\ (six_only l -> six_only l' /\ nine_each l').
Proof.
  intros Hlen Hagree.
  destruct (for_in_list_inv
    (fun pre st => let '(l1, d1) := st in
       length l1 = 54%nat /\ counts_agree l1 d1 /\ calm l l1 /\
       (six_only l -> forall c, c ∈ pre -> occ c l1 = 9))
    (fun _ => False)
    fix_target expected_colors (l, d)) as (s' & Hs' & [HI|[]]).
  - split_and!; try apply calm_refl; try done. intros _ c Hc. inversion Hc.
  - intros pre t post [l1 d1] Hsplit (Hlen1 & Hagree1 & Hcalm & Hpre).
    assert (Ht : t ∈ expected_colors).
    { rewrite Hsplit. apply elem_of_app. right. left. }
    destruct (fix_target_post l1 d1 t Hlen1 Hagree1 Ht)
      as (l' & d' & -> & Hlen' & Hagree' & Hcalm' & Hnine).
    unfold body_post. split_and!; try done.
    + by eapply calm_trans.
    + intros Hsix c Hc. apply elem_of_app in Hc as [Hc|Hc].
      * destruct Hcalm' as (_ & Hkeep & _). by apply Hkeep, Hpre.
      * apply list_elem_of_singleton in Hc as ->. apply Hnine.
        destruct Hcalm as (_ & _ & Hsix'). by apply Hsix'.
  - destruct s' as [l' d']. destruct HI as (Hlen' & Hagree' & Hcalm & Hall).
    exists l', d'. split_and!; try done.
    intros Hsix. split; [|intros c Hc; by apply Hall].
    destruct Hcalm as (_ & _ & Hsix'). by apply Hsix'.
Qed.

(** ** Strings and lists of characters *)

Lemma length_list_ascii_of_string s : length (list_ascii_of_string s) = String.length s.
Proof. induction s as [|a s IH]; simpl; congruence. Qed.

Lemma length_string_of_list_ascii l : String.length (string_of_list_ascii l) = length l.
Proof. induction l as [|a l IH]; simpl; congruence. Qed.

(** ** [validate_and_fix_cube_state]: the contract *)

(** The two outcomes on a string of 54 characters. *)
Lemma validate_54 s :
  String.length s = 54%nat ->
  let l := list_ascii_of_string s in
  (needs_fixing (add_missing (count_colors l)) = false /\
   validate_and_fix_cube_state s = Ok s) \/
  (exists l', validate_and_fix_cube_state s = Ok (string_of_list_ascii l') /\
     length l' = 54%nat /\ (six_only l -> six_only l' /\ nine_each l')).
Proof.
  intros Hlen l. unfold validate_and_fix_cube_state.
  destruct (decide (String.length s <> 54%nat)) as [Hne|_]; [contradiction|].
  fold l. destruct (needs_fixing (add_missing (count_colors l))) eqn:Hfix.
  - right.
    destruct (repair_loop l (add_missing (count_colors l))) as (l' & d' & -> & Hlen' & Hpost).
    + subst l. by rewrite length_list_ascii_of_string.
    + intros c Hc. by apply initial_counts_six.
    + exists l'. by split_and!.
  - left. by split.
Qed.

(** C3: [validate_and_fix_cube_state] raises a [ValueError] exactly when the
    input is not 54 characters long, and returns a string of 54 characters
    exactly when it is. *)
Theorem validate_length_contract (cube_state : string) :
  (String.length cube_state <> 54%nat <->
     exists msg, validate_and_fix_cube_state cube_state = Raise (ValueError msg)) /\
  (String.length cube_state = 54%nat <->
     exists out, validate_and_fix_cube_state cube_state = Ok out /\
                 String.length out = 54%nat).
Proof.
  destruct (decide (String.length cube_state = 54%nat)) as [Hlen|Hlen].
  - assert (Hok : exists out, validate_and_fix_cube_state cube_state = Ok out /\
                              String.length out = 54%nat).
    { destruct (validate_54 cube_state Hlen) as [[_ Hs]|(l' & Hs & Hlen' & _)].
      - by exists cube_state.
      - exists (string_of_list_ascii l'). by rewrite length_string_of_list_ascii. }
    split; split; try done.
    destruct Hok as (out & Hout & _). intros (msg & Hmsg). congruence.
  - assert (Hraise : exists msg,
              validate_and_fix_cube_state cube_state = Raise (ValueError msg)).
    { unfold validate_and_fix_cube_state.
      destruct (decide (String.length cube_state <> 54%nat)); [|contradiction].
      by eexists. }
    split; split; try done.
    destruct Hraise as (msg & Hmsg). intros (out & Hout & _). congruence.
Qed.

(** C1: on a string of 54 characters over the six symbols the repair returns
    a string in which each of the six symbols occurs exactly nine times. *)
Theorem repair_reaches_nine_each (cube_state : string) :
  String.length cube_state = 54%nat ->
  six_only (list_ascii_of_string cube_state) ->
  exists out, validate_and_fix_cube_state cube_state = Ok out /\
              nine_each (list_ascii_of_string out).
Proof.
  intros Hlen Hsix.
  destruct (validate_54 cube_state Hlen) as [[Hfix Hs]|(l' & Hs & _ & Hpost)].
  - exists cube_state. split; [exact Hs|]. intros c Hc.
    rewrite needs_fixing_false in Hfix.
    apply (Hfix c). apply dict_find_Some_elem. by apply initial_counts_six.
  - exists (string_of_list_ascii l'). split; [exact Hs|].
    rewrite list_ascii_of_string_of_list_ascii. by apply Hpost.
Qed.

(** A balanced list passes the test of line 74. *)
Lemma balanced_needs_no_fixing l :
  six_only l -> nine_each l -> needs_fixing (add_missing (count_colors l)) = false.
Proof.
  intros Hsix Hnine. apply needs_fixing_false. intros k v Hin.
  apply initial_counts_values in Hin as [-> [Hk|Hk]].
  - apply Hnine. unfold six_only in Hsix. rewrite Forall_forall in Hsix. by apply Hsix.
  - by apply Hnine.
Qed.

(** C4: a string of 54 characters over the six symbols in which each symbol
    already occurs nine times is returned unchanged. *)
Theorem repair_keeps_balanced (cube_state : string) :
  String.length cube_state = 54%nat ->
  six_only (list_ascii_of_string cube_state) ->
  nine_each (list_ascii_of_string cube_state) ->
  validate_and_fix_cube_state cube_state = Ok cube_state.
Proof.
  intros Hlen Hsix Hnine. unfold validate_and_fix_cube_state.
  destruct (decide (String.length cube_state <> 54%nat)) as [Hne|_]; [contradiction|].
  by rewrite (balanced_needs_no_fixing _ Hsix Hnine).
Qed.

(** C2: on a string of 54 characters over the six symbols, repairing the
    repaired string gives the repaired string again. *)
Theorem repair_idempotent (cube_state : string) :
  String.length cube_state = 54%nat ->
  six_only (list_ascii_of_string cube_state) ->
  validate_and_fix_cube_state cube_state ≫= validate_and_fix_cube_state
  = validate_and_fix_cube_state cube_state.
Proof.
  intros Hlen Hsix.
  destruct (validate_54 cube_state Hlen) as [[_ Hs]|(l' & Hs & Hlen' & Hpost)].
  - rewrite Hs. run. exact Hs.
  - rewrite Hs. run. destruct (Hpost Hsix) as [Hsix' Hnine'].
    unfold validate_and_fix_cube_state.
    rewrite length_string_of_list_ascii, list_ascii_of_string_of_list_ascii.
    destruct (decide (length l' <> 54%nat)) as [Hne|_]; [contradiction|].
    by rewrite (balanced_needs_no_fixing _ Hsix' Hnine').
Qed.

(** Concrete cube states for the statements above. *)
Lemma six_only_decide l :
  forallb (fun x => bool_decide (x ∈ expected_colors)) l = true -> six_only l.
Proof.
  intros Hall. apply Forall_forall. intros x Hx.
  rewrite forallb_forall in Hall.
  eapply bool_decide_eq_true_1, Hall. by apply list_elem_of_In.
Qed.

Lemma repair_reaches_nine_each_witness :
  exists out,
    validate_and_fix_cube_state
      "UUUUUUUUUUUUUUURRRRRRRRRFFFFFFFFFDDDDDDDDDLLLLLLLLLBBB" = Ok out /\
    nine_each (list_ascii_of_string out).
Proof.
  apply (repair_reaches_nine_each
           "UUUUUUUUUUUUUUURRRRRRRRRFFFFFFFFFDDDDDDDDDLLLLLLLLLBBB").
  - reflexivity.
  - apply six_only_decide. reflexivity.
Defined.

Lemma repair_keeps_balanced_witness :
  validate_and_fix_cube_state
    "UUUUUUUUURRRRRRRRRFFFFFFFFFDDDDDDDDDLLLLLLLLLBBBBBBBBB"
  = Ok "UUUUUUUUURRRRRRRRRFFFFFFFFFDDDDDDDDDLLLLLLLLLBBBBBBBBB"%string.
Proof.
  apply (repair_keeps_balanced
           "UUUUUUUUURRRRRRRRRFFFFFFFFFDDDDDDDDDLLLLLLLLLBBBBBBBBB").
  - reflexivity.
  - apply six_only_decide. reflexivity.
  - intros c Hc. six_cases Hc; reflexivity.
Defined.

Lemma repair_idempotent_witness :
  validate_and_fix_cube_state
    "LLLLLLLLLLLLLLLLLLLLDDDDDDDDDDDDDDDDDDDDBBBBBBBBBBBBBB"
    ≫= validate_and_fix_cube_state
  = validate_and_fix_cube_state
      "LLLLLLLLLLLLLLLLLLLLDDDDDDDDDDDDDDDDDDDDBBBBBBBBBBBBBB".
Proof.
  apply (repair_idempotent
           "LLLLLLLLLLLLLLLLLLLLDDDDDDDDDDDDDDDDDDDDBBBBBBBBBBBBBB").
  - reflexivity.
  - apply six_only_decide. reflexivity.
Defined.

(** ** The sticker classifier: the best score wins, the earlier symbol on a tie *)

Section Classifier.
Variable score_of : hsv -> hsv -> hsv -> Q.
Variable avg : hsv.

(** A range whose score does not exceed the best so far changes nothing. *)
Lemma consider_range_keep m b c lo hi :
(in_range avg lo hi = true -> (score_of avg lo hi <= b)%Q) ->
consider_range score_of avg (m, b) (c, (lo, hi)) = (m, b).
Proof.
intros Hle. unfold consider_range.
destruct (in_range avg lo hi); [|reflexivity].
destruct (Qlt_le_dec b (score_of avg lo hi)) as [Hlt|_]; [|reflexivity].
exfalso. apply (Qlt_irrefl b). eapply Qlt_le_trans; [exact Hlt|]. by apply Hle.
Qed.

(** The ranges after the winner leave it in place. *)
Lemma classify_loop_keep (post : dict ascii (hsv * hsv)) m b :
(forall c lo hi, (c, (lo, hi)) ∈ post -> in_range avg lo hi = true ->
   (score_of avg lo hi <= b)%Q) ->
foldl (consider_range score_of avg) (m, b) post = (m, b).
Proof.
induction post as [|[c [lo hi]] post IH]; intros Hle; cbn [foldl]; [reflexivity|].
rewrite consider_range_keep.
- apply IH. intros c' lo' hi' Hin. apply (Hle c'). by right.
- apply (Hle c). left.
Qed.

(** The ranges before the winner leave a best score below the winner's. *)
Lemma classify_loop_below (pre : dict ascii (hsv * hsv)) m b s :
(b < s)%Q ->
(forall c lo hi, (c, (lo, hi)) ∈ pre -> in_range avg lo hi = true ->
   (score_of avg lo hi < s)%Q) ->
(snd (foldl (consider_range score_of avg) (m, b) pre) < s)%Q.
Proof.
revert m b. induction pre as [|[c [lo hi]] pre IH]; intros m b Hb Hlt; cbn [foldl];
  [exact Hb|].
assert (Hrest : forall c' lo' hi', (c', (lo', hi')) ∈ pre -> in_range avg lo' hi' = true ->
                  (score_of avg lo' hi' < s)%Q).
{ intros c' lo' hi' Hin. apply (Hlt c'). by right. }
unfold consider_range at 2.
destruct (in_range avg lo hi) eqn:Hin; [|by apply IH].
destruct (Qlt_le_dec b (score_of avg lo hi)) as [_|_]; [|by apply IH].
apply IH; [|exact Hrest]. apply (Hlt c); [left|exact Hin].
Qed.

(** C5: the classifier returns the first symbol, in the order of the table,
  whose range holds the sample and whose score no other such range exceeds:
  a symbol met earlier with a smaller score is displaced, a symbol met later
  with the same score is not. *)
Theorem classify_ties_favor_earlier
  (ranges pre post : dict ascii (hsv * hsv)) (lower upper : hsv) (c : ascii) :
ranges = pre ++ (c, (lower, upper)) :: post ->
in_range avg lower upper = true ->
(0 < score_of avg lower upper)%Q ->
(forall c' lo hi, (c', (lo, hi)) ∈ pre -> in_range avg lo hi = true ->
   (score_of avg lo hi < score_of avg lower upper)%Q) ->
(forall c' lo hi, (c', (lo, hi)) ∈ post -> in_range avg lo hi = true ->
   (score_of avg lo hi <= score_of avg lower upper)%Q) ->
classify_sticker score_of ranges avg = c.
Proof.
intros -> Hin Hpos Hpre Hpost. unfold classify_sticker.
rewrite foldl_app. cbn [foldl].
pose proof (classify_loop_below pre None 0%Q _ Hpos Hpre) as Hbelow.
destruct (foldl (consider_range score_of avg) (None, 0%Q) pre) as [m b].
simpl in Hbelow.
unfold consider_range at 2. rewrite Hin.
destruct (Qlt_le_dec b (score_of avg lower upper)) as [_|Hle].
- by rewrite (classify_loop_keep post _ _ Hpost).
- exfalso. apply (Qlt_irrefl b). by eapply Qlt_le_trans.
Qed.
End Classifier.

(** Two overlapping ranges whose centres lie at the same distance from the
    sample: the scores are the same and the earlier symbol is returned. *)
Lemma classify_ties_favor_earlier_witness :
  (match_score (HSV 7 200 200) (HSV 0 120 70) (HSV 10 255 255)
   == match_score (HSV 7 200 200) (HSV 4 120 70) (HSV 14 255 255))%Q /\
  classify_sticker match_score
    [ ("R"%char, (HSV 0 120 70, HSV 10 255 255));
      ("L"%char, (HSV 4 120 70, HSV 14 255 255)) ]
    (HSV 7 200 200) = "R"%char.
Proof.
  split; [reflexivity|].
  apply (classify_ties_favor_earlier match_score (HSV 7 200 200)
           _ [] [("L"%char, (HSV 4 120 70, HSV 14 255 255))]
           (HSV 0 120 70) (HSV 10 255 255) "R"%char).
  - reflexivity.
  - reflexivity.
  - reflexivity.
  - intros c' lo hi Hin. inversion Hin.
  - intros c' lo hi Hin _. apply list_elem_of_singleton in Hin.
    injection Hin as -> -> ->. vm_compute. discriminate.
Defined.

(** ** The score of lines 47-55 is positive *)

Lemma hue_distance_bound (h lo hi : Z) :
  0 <= lo -> lo <= h -> h <= hi -> hi <= 180 ->
  (Qabs (inject_Z h - inject_Z (lo + hi) / 2) <= 180)%Q.
Proof.
  intros Hlo Hlh Hhh Hhi. apply Qabs_Qle_condition.
  assert (Ha1 : (0 <= inject_Z h)%Q) by (rewrite <- (Zle_Qle 0); lia).
  assert (Ha2 : (inject_Z h <= 180)%Q) by (rewrite <- (Zle_Qle _ 180); lia).
  assert (Ha3 : (0 <= inject_Z (lo + hi))%Q) by (rewrite <- (Zle_Qle 0); lia).
  assert (Ha4 : (inject_Z (lo + hi) <= 360)%Q) by (rewrite <- (Zle_Qle _ 360); lia).
  generalize dependent (inject_Z h). generalize dependent (inject_Z (lo + hi)).
  intros b Hb1 Hb2 a Ha1 Ha2. unfold Qdiv. change (/ 2)%Q with (1 # 2)%Q. split; lra.
Qed.

(** A sample inside a range whose hue bounds lie between 0 and 180 scores
    above 0, the initial [best_match_score]: the first range that holds the
    sample always becomes the match. *)
Lemma match_score_pos avg lower upper :
  0 <= hue lower -> hue upper <= 180 -> in_range avg lower upper = true ->
  (0 < match_score avg lower upper)%Q.
Proof.
  intros Hlo Hhi Hin. unfold in_range in Hin.
  repeat (apply andb_prop in Hin as [Hin ?]).
  repeat match goal with H : (_ <=? _) = true |- _ => apply Z.leb_le in H end.
  unfold match_score.
  pose proof (hue_distance_bound (hue avg) (hue lower) (hue upper)
                ltac:(lia) ltac:(lia) ltac:(lia) ltac:(lia)) as Hx'.
  pose proof (Qabs_nonneg (inject_Z (hue avg) - inject_Z (hue lower + hue upper) / 2)) as Hx.
  pose proof (Qabs_nonneg (inject_Z (sat avg) - inject_Z (sat lower + sat upper) / 2)) as Hsd.
  pose proof (Qabs_nonneg (inject_Z (val avg) - inject_Z (val lower + val upper) / 2)) as Hvd.
  generalize dependent (Qabs (inject_Z (hue avg) - inject_Z (hue lower + hue upper) / 2)).
  generalize dependent (Qabs (inject_Z (sat avg) - inject_Z (sat lower + sat upper) / 2)).
  generalize dependent (Qabs (inject_Z (val avg) - inject_Z (val lower + val upper) / 2)).
  intros vd Hvd sd Hsd x Hx' Hx.
  assert (Hmin : (0 <= Qmin x (180 - x))%Q) by (apply Q.min_glb; lra).
  generalize dependent (Qmin x (180 - x)). intros hd Hhd.
  apply Qlt_shift_div_l; unfold Qdiv;
    change (/ 180)%Q with (1 # 180)%Q; change (/ 255)%Q with (1 # 255)%Q; lra.
Qed.

(** With the table of the program every range that holds the sample scores
    above 0. *)
Lemma COLOR_RANGES_score_pos avg c lower upper :
  (c, (lower, upper)) ∈ COLOR_RANGES -> in_range avg lower upper = true ->
  (0 < match_score avg lower upper)%Q.
Proof.
  intros Hin. unfold COLOR_RANGES in Hin.
  repeat (apply elem_of_cons in Hin as [[= -> -> ->]|Hin]); [..|by inversion Hin];
    apply match_score_pos; simpl; lia.
Qed.

(** ** The table of the program has no ties *)

Lemma in_range_bounds avg lower upper :
  in_range avg lower upper = true ->
  hue lower <= hue avg <= hue upper /\
  sat lower <= sat avg <= sat upper /\
  val lower <= val avg <= val upper.
Proof.
  unfold in_range. intros Hin.
  repeat (apply andb_prop in Hin as [Hin ?]).
  repeat match goal with H : (_ <=? _) = true |- _ => apply Z.leb_le in H end.
  lia.
Qed.

(** Equal scores have equal denominators. *)
Lemma score_eq_denominators (d1 d2 : Q) : (1 / d1 == 1 / d2)%Q -> (d1 == d2)%Q.
Proof.
  unfold Qdiv. rewrite !Qmult_1_l. intros Heq.
  apply Qinv_comp in Heq. by rewrite !Qinv_involutive in Heq.
Qed.

(** Evaluate the hue terms of two scores of a sample with a known hue. *)
Ltac compute_hue_terms H :=
  repeat match type of H with
  | context [Qmin ?a ?b] =>
      let r := eval vm_compute in (Qmin a b) in change (Qmin a b) with r in H
  end.

(** X17: with the table of the program, two ranges that both hold a sample
    never give it the same score: where two ranges overlap (R and L on hues
    5-10, L and D on hues 15-20) their centres lie at different distances from
    every whole hue.  Scores are exact. *)
Lemma COLOR_RANGES_no_tie h s v c1 lo1 hi1 c2 lo2 hi2 :
  (c1, (lo1, hi1)) ∈ COLOR_RANGES -> (c2, (lo2, hi2)) ∈ COLOR_RANGES -> c1 <> c2 ->
  in_range (HSV h s v) lo1 hi1 = true -> in_range (HSV h s v) lo2 hi2 = true ->
  ~ (match_score (HSV h s v) lo1 hi1 == match_score (HSV h s v) lo2 hi2)%Q.
Proof.
  intros H1 H2 Hne Hin1 Hin2.
  apply in_range_bounds in Hin1, Hin2.
  unfold COLOR_RANGES in H1, H2.
  repeat (apply elem_of_cons in H1 as [[= -> -> ->]|H1]); [..|by inversion H1];
  repeat (apply elem_of_cons in H2 as [[= -> -> ->]|H2]); try (by inversion H2);
    try congruence; simpl in Hin1, Hin2; try lia;
    intros Heq; apply score_eq_denominators in Heq; cbn [hue sat val] in Heq;
    generalize dependent (Qabs (inject_Z s - inject_Z (120 + 255) / 2));
    generalize dependent (Qabs (inject_Z v - inject_Z (70 + 255) / 2));
    intros vd sd Heq.
  all: assert (Hh : h = 5 \/ h = 6 \/ h = 7 \/ h = 8 \/ h = 9 \/ h = 10 \/
                    h = 15 \/ h = 16 \/ h = 17 \/ h = 18 \/ h = 19 \/ h = 20) by lia.
  all: repeat (destruct Hh as [->|Hh]); try subst h; try lia.
  all: compute_hue_terms Heq; unfold Qdiv in Heq;
       change (/ 180)%Q with (1 # 180)%Q in Heq; change (/ 255)%Q with (1 # 255)%Q in Heq; lra.
Qed.

(** ** [fix_color_distribution]: [max], [min] and the tally *)

Lemma max_fold_spec (d : dict ascii Z) (best : ascii * Z) :
  let r := foldl (fun best item => if snd best <? snd item then item else best) best d in
  (r = best \/ r ∈ d) /\ snd best <= snd r /\ forall item, item ∈ d -> snd item <= snd r.
Proof.
  revert best. induction d as [|item d IH]; intros best; cbn [foldl].
  - split; [by left|]. split; [lia|]. intros item Hin. inversion Hin.
  - destruct (IH (if snd best <? snd item then item else best)) as (Hr & Hbest & Hall).
    destruct (snd best <? snd item) eqn:Hlt;
      [apply Z.ltb_lt in Hlt|apply Z.ltb_ge in Hlt].
    + split; [right; destruct Hr as [->|Hr]; [left|by right]|].
      split; [lia|]. intros x Hx. apply elem_of_cons in Hx as [->|Hx]; [lia|by apply Hall].
    + split; [destruct Hr as [->|Hr]; [by left|right; by right]|].
      split; [lia|]. intros x Hx. apply elem_of_cons in Hx as [->|Hx]; [lia|by apply Hall].
Qed.

Lemma max_item_spec (d : dict ascii Z) :
  d <> [] ->
  exists k v, max_item d = Ok (k, v) /\ (k, v) ∈ d /\ forall k' v', (k', v') ∈ d -> v' <= v.
Proof.
  destruct d as [|item d]; [done|]. intros _. unfold max_item.
  destruct (max_fold_spec d item) as (Hr & Hbest & Hall).
  destruct (foldl _ item d) as [k v] eqn:Hfold. exists k, v.
  split; [reflexivity|]. split.
  - destruct Hr as [->|Hr]; [left|by right].
  - intros k' v' Hin. apply elem_of_cons in Hin as [<-|Hin]; [exact Hbest|].
    apply (Hall (k', v') Hin).
Qed.

Lemma min_fold_spec (d : dict ascii Z) (best : ascii * Z) :
  let r := foldl (fun best item => if snd item <? snd best then item else best) best d in
  (r = best \/ r ∈ d) /\ snd r <= snd best /\ forall item, item ∈ d -> snd r <= snd item.
Proof.
  revert best. induction d as [|item d IH]; intros best; cbn [foldl].
  - split; [by left|]. split; [lia|]. intros item Hin. inversion Hin.
  - destruct (IH (if snd item <? snd best then item else best)) as (Hr & Hbest & Hall).
    destruct (snd item <? snd best) eqn:Hlt;
      [apply Z.ltb_lt in Hlt|apply Z.ltb_ge in Hlt].
    + split; [right; destruct Hr as [->|Hr]; [left|by right]|].
      split; [lia|]. intros x Hx. apply elem_of_cons in Hx as [->|Hx]; [lia|by apply Hall].
    + split; [destruct Hr as [->|Hr]; [by left|right; by right]|].
      split; [lia|]. intros x Hx. apply elem_of_cons in Hx as [->|Hx]; [lia|by apply Hall].
Qed.

Lemma min_item_spec (d : dict ascii Z) :
  d <> [] ->
  exists k v, min_item d = Ok (k, v) /\ (k, v) ∈ d /\ forall k' v', (k', v') ∈ d -> v <= v'.
Proof.
  destruct d as [|item d]; [done|]. intros _. unfold min_item.
  destruct (min_fold_spec d item) as (Hr & Hbest & Hall).
  destruct (foldl _ item d) as [k v] eqn:Hfold. exists k, v.
  split; [reflexivity|]. split.
  - destruct Hr as [->|Hr]; [left|by right].
  - intros k' v' Hin. apply elem_of_cons in Hin as [<-|Hin]; [exact Hbest|].
    apply (Hall (k', v') Hin).
Qed.

Lemma count_colors_tally l : tally l (count_colors l).
Proof. intros c. apply count_colors_get. Qed.

(** Under the tally the value of a key is the count of the key. *)
Lemma tally_find l (d : dict ascii Z) k :
  tally l d -> k ∈ dict_keys d -> dict_find d k = Some (occ k l).
Proof.
  intros Htally Hk. apply dict_find_is_Some in Hk as [v Hv].
  specialize (Htally k). unfold dict_get in Htally. rewrite Hv in Htally. by subst v.
Qed.

Lemma tally_elem l (d : dict ascii Z) k v :
  tally l d -> NoDup (dict_keys d) -> (k, v) ∈ d -> v = occ k l.
Proof.
  intros Htally Hnd Hin. apply dict_elem_find in Hin; [|exact Hnd].
  specialize (Htally k). unfold dict_get in Htally. by rewrite Hin in Htally.
Qed.

Lemma dict_keys_elem {V : Type} (d : dict ascii V) k :
  k ∈ dict_keys d -> exists v, (k, v) ∈ d.
Proof.
  intros Hk. apply dict_find_is_Some in Hk as [v Hv]. exists v.
  by apply dict_find_Some_elem.
Qed.

Lemma dict_elem_keys {V : Type} (d : dict ascii V) k v : (k, v) ∈ d -> k ∈ dict_keys d.
Proof. intros Hin. unfold dict_keys. apply list_elem_of_fmap. by exists (k, v). Qed.

(** The two count updates of lines 180-181, after [face_colors[i] = y]. *)
Lemma tally_move l (d : dict ascii Z) i x y :
  tally l d -> l !! i = Some x ->
  x ∈ dict_keys d -> y ∈ dict_keys d -> x <> y ->
  exists d1 d2,
    dict_iadd d y 1 = Ok d1 /\ dict_iadd d1 x (-1) = Ok d2 /\
    tally (<[i:=y]> l) d2 /\ dict_keys d2 = dict_keys d.
Proof.
  intros Htally Hi Hx Hy Hne.
  pose proof (tally_find l d x Htally Hx) as Hfx.
  pose proof (tally_find l d y Htally Hy) as Hfy.
  exists (dict_set d y (occ y l + 1)),
         (dict_set (dict_set d y (occ y l + 1)) x (occ x l + -1)).
  split; [by apply dict_iadd_Some|]. split; [|split].
  - apply dict_iadd_Some. by rewrite dict_find_set_ne.
  - intros c. unfold dict_get. rewrite !dict_find_set, (occ_insert c l i x y Hi).
    specialize (Htally c). unfold dict_get in Htally. unfold same.
    destruct (decide (x = c)), (decide (y = c)); subst; try congruence; lia.
  - rewrite !dict_keys_set_present; [reflexivity|by eexists|].
    rewrite dict_find_set_ne by done. by eexists.
Qed.

Lemma elem_of_insert_inv {A : Type} (l : list A) i y x :
  x ∈ <[i:=y]> l -> x = y \/ x ∈ l.
Proof.
  revert i. induction l as [|z l IH]; intros [|i]; simpl; intros Hin; try (by right).
  - apply elem_of_cons in Hin as [->|Hin]; [by left|right; by right].
  - apply elem_of_cons in Hin as [->|Hin]; [right; left|].
    destruct (IH i Hin) as [->|Hl]; [by left|right; by right].
Qed.

(** ** [fix_color_distribution]: the final check *)

(** Lines 173-182: a colour on more than five of the nine stickers is brought
    down to four, each freed sticker going to the least common colour. *)
Lemma cap_loop l (d : dict ascii Z) a b :
  length l = 9%nat -> tally l d -> NoDup (dict_keys d) ->
  a ∈ dict_keys d -> b ∈ dict_keys d -> a <> b -> 5 < occ a l ->
  exists l' d' e',
    for_in (range (length l)) (cap_at a) (l, d, occ a l - 4) = Ok (l', d', e') /\
    length l' = 9%nat /\ tally l' d' /\ dict_keys d' = dict_keys d /\
    (forall x, x ∈ l' -> x ∈ l \/ x ∈ dict_keys d) /\
    (forall c, occ c l' <= 5) /\ occ a l' = 4.
Proof.
  intros Hlen Htally Hnd Ha Hb Hab Hgt.
  destruct (for_range_inv
    (fun i st => let '(l1, d1, e1) := st in
       length l1 = 9%nat /\ tally l1 d1 /\ dict_keys d1 = dict_keys d /\
       (forall x, x ∈ l1 -> x ∈ l \/ x ∈ dict_keys d) /\
       e1 = occ a l1 - 4 /\ 0 <= e1 /\ occ a l1 - 4 <= occ a (drop i l1) /\
       forall c, c <> a -> occ c l1 <= 5)
    (fun _ => False)
    (cap_at a) (length l) (l, d, occ a l - 4)) as (s' & Hs' & [HI|[]]).
  - rewrite drop_0. split_and!; try done; try lia; [by left|].
    intros c Hc. pose proof (occ_two_le_length a c l ltac:(done)). lia.
  - intros i [[l1 d1] e1] Hi (Hlen1 & Htally1 & Hkeys & Hsub & He & Hpos & Hdrop & Hothers).
    destruct (lookup_lt_is_Some_2 l1 i ltac:(lia)) as [x Hx].
    unfold cap_at, body_post.
    rewrite (list_getitem_Some l1 i x Hx). run.
    pose proof (occ_drop_lookup a l1 i x Hx) as Hsplit.
    destruct (bool_decide (x = a) && (0 <? e1)) eqn:Hcond.
    + apply andb_true_iff in Hcond as [Hxa Hlt].
      apply bool_decide_eq_true in Hxa as ->. apply Z.ltb_lt in Hlt.
      destruct (min_item_spec d1) as (k & v & Hmin & Hkin & Hleast).
      { intros ->. rewrite <- Hkeys in Ha. inversion Ha. }
      rewrite Hmin. run. cbn [fst].
      assert (Hnd1 : NoDup (dict_keys d1)) by (by rewrite Hkeys).
      pose proof (tally_elem l1 d1 k v Htally1 Hnd1 Hkin) as Hv.
      assert (Hk : k <> a).
      { intros ->. rewrite <- Hkeys in Hb. apply dict_keys_elem in Hb as [vb Hbin].
        pose proof (tally_elem l1 d1 b vb Htally1 Hnd1 Hbin) as Hvb.
        pose proof (Hleast b vb Hbin).
        pose proof (occ_two_le_length a b l1 Hab). lia. }
      rewrite bool_decide_true by exact Hk.
      rewrite (list_setitem_Some l1 i a k Hx). run.
      destruct (tally_move l1 d1 i a k Htally1 Hx) as (d2 & d3 & H2 & H3 & Htally3 & Hkeys3);
        [by rewrite Hkeys|by eapply dict_elem_keys|done|].
      rewrite H2. run. rewrite H3. run.
      rewrite length_insert, drop_S_insert.
      rewrite (occ_insert a l1 i a k Hx), same_refl, (same_ne k a Hk) in *.
      split_and!; try done; try lia.
      * congruence.
      * intros y Hy. apply elem_of_insert_inv in Hy as [->|Hy]; [|by apply Hsub].
        right. rewrite <- Hkeys. by eapply dict_elem_keys.
      * intros c Hc. rewrite (occ_insert c l1 i a k Hx), (same_ne a c) by done.
        unfold same. destruct (decide (k = c)) as [<-|_].
        -- pose proof (occ_two_le_length a k l1 ltac:(done)). lia.
        -- specialize (Hothers c Hc). lia.
    + split_and!; try done.
      apply andb_false_iff in Hcond as [Hxa|Hlt].
      * apply bool_decide_eq_false in Hxa. rewrite (same_ne x a Hxa) in Hsplit. lia.
      * apply Z.ltb_ge in Hlt. pose proof (occ_nonneg a (drop (S i) l1)). lia.
  - destruct s' as [[l' d'] e'].
    destruct HI as (Hlen' & Htally' & Hkeys & Hsub & He & Hpos & Hdrop & Hothers).
    exists l', d', e'. replace (length l) with (length l') in Hdrop by congruence.
    rewrite occ_drop_all in Hdrop.
    split_and!; try done; [|lia].
    intros c. destruct (decide (c = a)) as [->|Hc]; [lia|by apply Hothers].
Qed.

(** Lines 167-182: on nine stickers of at least two colours the final check
    leaves no colour on more than five. *)
Lemma final_check_post l a b :
  length l = 9%nat -> a ∈ l -> b ∈ l -> a <> b ->
  exists out, final_check l = Ok out /\ length out = 9%nat /\
    (forall x, x ∈ out -> x ∈ l) /\ forall c, occ c out <= 5.
Proof.
  intros Hlen Ha Hb Hab. unfold final_check.
  pose proof (count_colors_NoDup l) as Hnd.
  set (K0 := dict_keys (count_colors l)) in *.
  destruct (for_in_list_inv
    (fun pre st => let '(l1, d1) := st in
       length l1 = 9%nat /\ tally l1 d1 /\ dict_keys d1 = K0 /\
       (forall x, x ∈ l1 -> x ∈ l) /\
       forall c, 5 < occ c l1 -> c ∉ pre)
    (fun _ => False)
    cap_color K0 (l, count_colors l)) as (s' & Hs' & [HI|[]]).
  - split_and!; try done; [apply count_colors_tally|].
    intros c _ Hc. inversion Hc.
  - intros pre k post [l1 d1] Hsplit (Hlen1 & Htally1 & Hkeys & Hsub & Hpre).
    assert (Hk : k ∈ dict_keys d1).
    { rewrite Hkeys, Hsplit. apply elem_of_app. right. left. }
    unfold cap_color, body_post.
    rewrite (dict_getitem_Some _ _ _ (tally_find l1 d1 k Htally1 Hk)). run.
    destruct (5 <? occ k l1) eqn:Hgt.
    + apply Z.ltb_lt in Hgt.
      assert (Hcomp : exists b', b' ∈ dict_keys d1 /\ k <> b').
      { rewrite Hkeys. destruct (decide (k = a)) as [->|Hka].
        - exists b. split; [by apply count_colors_keys|done].
        - exists a. split; [by apply count_colors_keys|done]. }
      destruct Hcomp as (b' & Hb' & Hkb').
      destruct (cap_loop l1 d1 k b' Hlen1 Htally1) as
        (l' & d' & e' & -> & Hlen' & Htally' & Hkeys' & Hsub' & Hall & _);
        try done; [by rewrite Hkeys|].
      run. split_and!; try done; [congruence| |].
      * intros x Hx. destruct (Hsub' x Hx) as [Hx1|Hx1]; [by apply Hsub|].
        rewrite Hkeys in Hx1. by apply (count_colors_keys l x).
      * intros c Hc. specialize (Hall c). lia.
    + apply Z.ltb_ge in Hgt. split_and!; try done.
      intros c Hc Hin. apply elem_of_app in Hin as [Hin|Hin]; [by apply (Hpre c)|].
      apply list_elem_of_singleton in Hin as ->. lia.
  - destruct s' as [l' d']. destruct HI as (Hlen' & Htally' & Hkeys & Hsub & Hall).
    run. rewrite Hs'. exists l'. split_and!; try done.
    intros c. destruct (Z_lt_le_dec 5 (occ c l')) as [Hgt|Hle]; [|exact Hle].
    exfalso. apply (Hall c Hgt). apply count_colors_keys, Hsub.
    apply occ_pos_elem. lia.
Qed.

(** ** [fix_color_distribution]: the first pass *)

(** Lines 158-163: position [i] either keeps its colour or takes one of the
    replacement colours that is counted below 2. *)
Lemma find_underrepresented l (d : dict ascii Z) i m v rs :
  l !! i = Some m -> m ∈ dict_keys d -> (forall r, r ∈ rs -> r <> m) ->
  exists l' d',
    for_in rs (try_underrepresented (m, v) i) (l, d) = Ok (l', d') /\
    m ∈ dict_keys d' /\
    (l' = l \/ exists r, r ∈ rs /\ dict_get d r 0 < 2 /\ l' = <[i:=r]> l).
Proof.
  intros Hi Hm Hrs.
  destruct (for_in_list_inv
    (fun pre st => st = (l, d))
    (fun st => let '(l', d') := st in
       m ∈ dict_keys d' /\ exists r, r ∈ rs /\ dict_get d r 0 < 2 /\ l' = <[i:=r]> l)
    (try_underrepresented (m, v) i) rs (l, d)) as (s' & Hs' & [->|HQ]).
  - reflexivity.
  - intros pre r post st Hsplit ->. unfold try_underrepresented, body_post.
    assert (Hr : r ∈ rs). { rewrite Hsplit. apply elem_of_app. right. left. }
    destruct (dict_get d r 0 <? 2) eqn:Hlt; [|reflexivity].
    apply Z.ltb_lt in Hlt. rewrite (list_setitem_Some l i m r Hi). run. cbn [fst].
    apply dict_find_is_Some in Hm as [vm Hvm].
    rewrite (dict_iadd_Some _ m vm) by (rewrite dict_find_set_ne; [done|by apply Hrs]).
    run. split.
    + apply dict_find_is_Some. rewrite dict_find_set_eq. by eexists.
    + by exists r.
  - exists l, d. split_and!; try done. by left.
  - destruct s' as [l' d']. destruct HQ as (Hm' & Hex). exists l', d'.
    split_and!; try done. by right.
Qed.

(** Lines 150-164: the first pass keeps at least three stickers of the most
    common colour and every sticker of another colour. *)
Lemma spread_loop l (d : dict ascii Z) m b :
  length l = 9%nat -> m ∈ dict_keys d -> b ∈ l -> b <> m -> 3 <= occ m l ->
  exists l' d' e',
    spread_most_common (m, occ m l) (l, d) = Ok (l', d', e') /\
    length l' = 9%nat /\ m ∈ l' /\ b ∈ l' /\
    forall x, x ∈ l' -> x ∈ l \/ x ∈ target_colors.
Proof.
  intros Hlen Hm Hb Hbm Hthree. unfold spread_most_common. cbn [fst snd].
  set (rs := filter (fun c => c <> m) target_colors).
  assert (Hrs : forall r, r ∈ rs -> r <> m /\ r ∈ target_colors).
  { intros r Hr. by apply list_elem_of_filter in Hr. }
  destruct (for_range_inv
    (fun (i : nat) st => let '(l1, d1, e1) := st in
       length l1 = 9%nat /\ m ∈ dict_keys d1 /\ 0 < occ b l1 /\
       e1 <= occ m l1 - 3 /\ 3 <= occ m l1 /\
       forall x, x ∈ l1 -> x ∈ l \/ x ∈ target_colors)
    (fun _ => False)
    (spread_at (m, occ m l) rs) (length l) (l, d, occ m l - 3)) as (s' & Hs' & [HI|[]]).
  - split_and!; try done; try lia; [by apply occ_pos_elem|by left].
  - intros i [[l1 d1] e1] Hi (Hlen1 & Hm1 & Hb1 & He & Hthree1 & Hsub).
    destruct (lookup_lt_is_Some_2 l1 i ltac:(lia)) as [x Hx].
    unfold spread_at, body_post.
    rewrite (list_getitem_Some l1 i x Hx). run. cbn [fst].
    destruct (bool_decide (x = m) && (0 <? e1)) eqn:Hcond; [|by split_and!].
    apply andb_true_iff in Hcond as [Hxm Hlt].
    apply bool_decide_eq_true in Hxm as ->. apply Z.ltb_lt in Hlt.
    destruct (find_underrepresented l1 d1 i m (occ m l) rs Hx Hm1)
      as (l' & d' & -> & Hm' & Hl'); [intros r Hr; by apply Hrs|].
    run. destruct Hl' as [->|(r & Hr & _ & ->)].
    + split_and!; try done; lia.
    + destruct (Hrs r Hr) as [Hrm Hrt].
      rewrite length_insert, !(occ_insert _ l1 i m r Hx), same_refl, (same_ne r m Hrm),
        (same_ne m b) by done.
      pose proof (same_range r b).
      split_and!; try done; try lia.
      intros y Hy. apply elem_of_insert_inv in Hy as [->|Hy]; [by right|by apply Hsub].
  - destruct s' as [[l' d'] e']. destruct HI as (Hlen' & Hm' & Hb' & He & Hthree' & Hsub).
    exists l', d', e'. split_and!; try done; apply occ_pos_elem; lia.
Qed.

(** ** [fix_color_distribution]: the contract *)

Lemma second_key (d : dict ascii Z) m :
  NoDup (dict_keys d) -> (1 < length d)%nat -> exists b, b ∈ dict_keys d /\ b <> m.
Proof.
  destruct d as [|[k1 v1] [|[k2 v2] d]]; simpl; intros Hnd Hlen; try lia.
  apply NoDup_cons in Hnd as [Hnin _].
  destruct (decide (k1 = m)) as [->|Hne].
  - exists k2. split; [right; left|]. intros ->. apply Hnin. left.
  - exists k1. split; [left|done].
Qed.

Lemma single_key (d : dict ascii Z) x y :
  (length d <= 1)%nat -> x ∈ dict_keys d -> y ∈ dict_keys d -> x = y.
Proof.
  destruct d as [|[k1 v1] [|[k2 v2] d]]; simpl; intros Hlen Hx Hy; try lia.
  - inversion Hx.
  - apply list_elem_of_singleton in Hx, Hy. congruence.
Qed.

(** What [fix_color_distribution] does to nine stickers: it returns nine
    stickers, each one from the input or one of the six symbols, and either
    returns its input (a face of one colour, or no colour on more than six
    stickers) or leaves no colour on more than five. *)
Lemma fix_post l label :
  length l = 9%nat ->
  exists out, fix_color_distribution l label = Ok out /\ length out = 9%nat /\
    (forall x, x ∈ out -> x ∈ l \/ x ∈ target_colors) /\
    ((out = l /\ ((forall x y, x ∈ l -> y ∈ l -> x = y) \/ forall c, occ c l <= 6)) \/
     forall c, occ c out <= 5).
Proof.
  intros Hlen. unfold fix_color_distribution.
  pose proof (count_colors_NoDup l) as Hnd.
  pose proof (count_colors_tally l) as Htally.
  pose proof (count_colors_keys l) as Hkeys.
  destruct (1 <? length (count_colors l))%nat eqn:Hmany.
  - apply Nat.ltb_lt in Hmany.
    destruct (max_item_spec (count_colors l)) as (m & v & Hmax & Hmin & Hbig).
    { intros Heq. rewrite Heq in Hmany. simpl in Hmany. lia. }
    rewrite Hmax. run. cbn [snd].
    pose proof (tally_elem l _ m v Htally Hnd Hmin) as ->.
    assert (Hm : m ∈ l) by (by eapply Hkeys, dict_elem_keys).
    destruct (6 <? occ m l) eqn:Hsix.
    + apply Z.ltb_lt in Hsix.
      destruct (second_key (count_colors l) m Hnd Hmany) as (b & Hb & Hbm).
      apply Hkeys in Hb.
      destruct (7 <? occ m l) eqn:Hseven.
      * destruct (spread_loop l (count_colors l) m b Hlen) as
          (l1 & d1 & e1 & -> & Hlen1 & Hm1 & Hb1 & Hsub1); try done; [by apply Hkeys|lia|].
        run.
        destruct (final_check_post l1 m b Hlen1 Hm1 Hb1) as (out & -> & Hlen' & Hsub & Hall);
          [done|].
        exists out. split_and!; try done; [|by right].
        intros x Hx. by apply Hsub1, Hsub.
      * run.
        destruct (final_check_post l m b Hlen Hm Hb) as (out & -> & Hlen' & Hsub & Hall);
          [done|].
        exists out. split_and!; try done; [|by right].
        intros x Hx. left. by apply Hsub.
    + apply Z.ltb_ge in Hsix. exists l. split_and!; try done; [by left|].
      left. split; [reflexivity|]. right. intros c.
      destruct (decide (c ∈ l)) as [Hc|Hc].
      * apply Hkeys in Hc. pose proof (tally_find l _ c Htally Hc) as Hf.
        apply dict_find_Some_elem in Hf. specialize (Hbig c _ Hf). lia.
      * apply occ_zero_not_elem in Hc. lia.
  - apply Nat.ltb_ge in Hmany. exists l. split_and!; try done; [by left|].
    left. split; [reflexivity|]. left. intros x y Hx Hy.
    apply (single_key (count_colors l)); [exact Hmany|by apply Hkeys|by apply Hkeys].
Qed.

(** C6: on nine symbols drawn from the six, [fix_color_distribution] does not
    raise and returns nine symbols, each one of the six. *)
Theorem fix_color_distribution_safe (face_colors : list ascii) (face_label : string) :
  length face_colors = 9%nat ->
  six_only face_colors ->
  exists out, fix_color_distribution face_colors face_label = Ok out /\
              length out = 9%nat /\ six_only out.
Proof.
  intros Hlen Hsix.
  destruct (fix_post face_colors face_label Hlen) as (out & Hout & Hlen' & Hsub & _).
  exists out. split_and!; try done.
  apply Forall_forall. intros x Hx. destruct (Hsub x Hx) as [Hin|Hin]; [|exact Hin].
  unfold six_only in Hsix. rewrite Forall_forall in Hsix. by apply Hsix.
Qed.

Lemma fix_color_distribution_safe_witness :
  exists out, fix_color_distribution (list_ascii_of_string "RRRRRRRRU") "U" = Ok out /\
              length out = 9%nat /\ six_only out.
Proof.
  apply (fix_color_distribution_safe (list_ascii_of_string "RRRRRRRRU") "U").
  - reflexivity.
  - apply six_only_decide. reflexivity.
Defined.

(** ** [fix_color_distribution]: the final check, sticker by sticker *)













(** Seven [R], one [U], one [F]: the first freed sticker goes to [U], the
    first of the two colours on one sticker, the second to [F], which is then
    alone on one, and the third to [U], the first of the two colours on two. *)
Lemma final_check_follows_the_counts :
  fix_color_distribution (list_ascii_of_string "RRRRRRRUF") "U"
  = Ok (list_ascii_of_string "UFURRRRUF").
Proof. reflexivity. Qed.

(** ** Scenario C: eight [R] and one [U] *)

(** One position of the repaired face: it still holds what it held, or the
    first pass wrote its colour there, a colour that was counted below 2
    when the loop reached the position. *)
Ltac settle_position :=
  match goal with
  | Hface : _ !! _ = Some "R"%char, Hout : _ !! _ = Some ?x, Hx : ?x <> "R"%char |- _ =>
      vm_compute in Hface; vm_compute in Hout;
      first
        [ discriminate Hface
        | discriminate Hout
        | injection Hout as <-;
          first
            [ exfalso; apply Hx; reflexivity
            | do 6 eexists; split_and!; vm_compute; reflexivity ] ]
  end.

(** C8: whatever the position of the [U], the face comes back with fewer than
    seven [R].  The face returned is the face the first pass leaves (the final
    check changes nothing), and every position that lost its [R] lost it in
    the step of the first pass at that position, to a colour that was counted
    below 2, in [color_counts] and on the face, when the step began. *)
Theorem scenario_C_spreads_R (k : nat) (face_label : string) :
  (k < 9)%nat ->
  exists out,
    fix_color_distribution (face_8R_1U k) face_label = Ok out /\
    occ "R" out < 7 /\
    after_first_pass (face_8R_1U k) = Ok out /\
    forall i x,
      face_8R_1U k !! i = Some "R"%char -> out !! i = Some x -> x <> "R"%char ->
      exists face_then counts_then excess_then face_next counts_next excess_next,
        spread_state_at (face_8R_1U k) i = Ok (face_then, counts_then, excess_then) /\
        spread_at ("R"%char, 8) (filter (fun c => c ≠ "R"%char) target_colors) i
          (face_then, counts_then, excess_then)
          = Ok (Continue (face_next, counts_next, excess_next)) /\
        face_then !! i = Some "R"%char /\
        dict_get counts_then x 0 < 2 /\
        occ x face_then < 2 /\
        face_next !! i = Some x.
Proof.
  intros Hk.
  do 9 (destruct k as [|k];
    [eexists; split; [vm_compute; reflexivity|]; split; [vm_compute; reflexivity|];
     split; [vm_compute; reflexivity|];
     intros i x Hface Hout Hx;
     do 9 (destruct i as [|i]; [settle_position|]);
     vm_compute in Hface; discriminate Hface
    |]).
  lia.
Qed.

Lemma scenario_C_spreads_R_witness :
  exists out,
    fix_color_distribution (face_8R_1U 8) "F" = Ok out /\
    occ "R" out < 7 /\
    after_first_pass (face_8R_1U 8) = Ok out /\
    forall i x,
      face_8R_1U 8 !! i = Some "R"%char -> out !! i = Some x -> x <> "R"%char ->
      exists face_then counts_then excess_then face_next counts_next excess_next,
        spread_state_at (face_8R_1U 8) i = Ok (face_then, counts_then, excess_then) /\
        spread_at ("R"%char, 8) (filter (fun c => c ≠ "R"%char) target_colors) i
          (face_then, counts_then, excess_then)
          = Ok (Continue (face_next, counts_next, excess_next)) /\
        face_then !! i = Some "R"%char /\
        dict_get counts_then x 0 < 2 /\
        occ x face_then < 2 /\
        face_next !! i = Some x.
Proof. apply (scenario_C_spreads_R 8 "F"). lia. Defined.

(** ** The image pipeline *)

Section PipelineFacts.
Variable image : Type.
Variable imread : string -> option image.
Variable avg_color : image -> nat -> nat -> hsv.

Local Abbreviation recognize := (recognize_face_colors image imread avg_color).
Local Abbreviation scan := (scan_faces image imread avg_color).
Local Abbreviation solve_traced := (solve_cube_from_images_traced image imread avg_color).
Local Abbreviation solve := (solve_cube_from_images image imread avg_color).

Lemma scan_grid_length img : length (scan_grid image avg_color img) = 9%nat.
Proof. reflexivity. Qed.

Lemma recognize_loaded image_path face_label img :
  imread image_path = Some img ->
  exists colors, recognize image_path face_label = Ok colors.
Proof.
  intros Himg. unfold recognize_face_colors. rewrite Himg.
  destruct (fix_post (scan_grid image avg_color img) face_label (scan_grid_length img))
    as (out & Hout & _).
  by exists out.
Qed.

Lemma recognize_unloadable image_path face_label :
  imread image_path = None ->
  recognize image_path face_label
  = Raise (ValueError (String.append "Could not load image: " image_path)).
Proof. intros Himg. unfold recognize_face_colors. by rewrite Himg. Qed.

(** The loop runs through readable faces and records each of them. *)
Lemma scan_readable image_paths pre rest cube_state classified :
  (forall g, g ∈ pre -> readable imread image_paths g) ->
  exists cube_state',
    scan image_paths (pre ++ rest) cube_state classified
    = scan image_paths rest cube_state' (classified ++ pre).
Proof.
  revert cube_state classified.
  induction pre as [|g pre IH]; intros cube_state classified Hpre; simpl.
  - exists cube_state. by rewrite app_nil_r.
  - destruct (Hpre g) as (image_path & img & Hpath & Himg); [left|].
    rewrite (dict_getitem_Some _ _ _ Hpath).
    destruct (recognize_loaded image_path g img Himg) as (colors & ->).
    destruct (IH (String.append cube_state (string_of_list_ascii colors))
                 (classified ++ [g])) as (cube_state' & ->).
    { intros g' Hg'. apply Hpre. by right. }
    exists cube_state'. by rewrite <- app_assoc.
Qed.

(** A face whose image does not load stops the loop, at that face or before. *)
Lemma scan_unloadable image_paths faces cube_state classified f image_path :
  f ∈ faces -> dict_find image_paths f = Some image_path -> imread image_path = None ->
  exists classified' e,
    scan image_paths faces cube_state classified = (classified', Raise e).
Proof.
  intros Hf Hpath Himg. revert cube_state classified.
  induction faces as [|g faces IH]; intros cube_state classified; [inversion Hf|].
  simpl. destruct (dict_getitem image_paths g) as [p|e] eqn:Hg; [|by eexists _, _].
  destruct (recognize p g) as [colors|e] eqn:Hrec; [|by eexists _, _].
  apply elem_of_cons in Hf as [->|Hf]; [|by apply IH].
  exfalso. unfold dict_getitem in Hg. rewrite Hpath in Hg. injection Hg as <-.
  rewrite (recognize_unloadable image_path g Himg) in Hrec. discriminate.
Qed.

(** C9, amended: when [f] is the first face in the order U, R, F, D, L, B
    that the mapping lacks, and the faces before it are readable, the call
    fails with a [KeyError] naming [f] after the faces before [f] have been
    classified; it returns no cube state. *)
Theorem missing_face_fails_at_its_turn
    (image_paths : dict string string) (pre post : list string) (f : string) :
  face_order = pre ++ f :: post ->
  dict_find image_paths f = None ->
  (forall g, g ∈ pre -> readable imread image_paths g) ->
  solve_traced image_paths = (pre, Raise (KeyError f)).
Proof.
  intros Horder Hmissing Hpre. unfold solve_cube_from_images_traced. rewrite Horder.
  destruct (scan_readable image_paths pre (f :: post) EmptyString [] Hpre) as (cs & ->).
  simpl. unfold dict_getitem. by rewrite Hmissing.
Qed.

(** C10, amended: when the image of one of the six faces does not load,
    [recognize_face_colors] raises a [ValueError] whose message names the
    image path, and [solve_cube_from_images] raises and returns no cube
    state. *)
Theorem unloadable_image_aborts
    (image_paths : dict string string) (f image_path : string) :
  f ∈ face_order ->
  dict_find image_paths f = Some image_path ->
  imread image_path = None ->
  recognize image_path f
  = Raise (ValueError (String.append "Could not load image: " image_path)) /\
  exists e, solve image_paths = Raise e.
Proof.
  intros Hf Hpath Himg. split; [by apply recognize_unloadable|].
  unfold solve_cube_from_images, solve_cube_from_images_traced.
  destruct (scan_unloadable image_paths face_order EmptyString [] f image_path Hf Hpath Himg)
    as (classified & e & ->).
  by exists e.
Qed.
End PipelineFacts.

(** C9 does not hold for every missing face: with every face but [B] in the
    mapping, five faces are classified before the call fails. *)
Lemma five_faces_classified_before_missing_B :
  solve_cube_from_images_traced hsv studio_imread flat_avg
    [ ("U", "u.png"); ("R", "r.png"); ("F", "f.png"); ("D", "d.png"); ("L", "l.png") ]%string
  = (["U"; "R"; "F"; "D"; "L"]%string, Raise (KeyError "B")).
Proof. vm_compute. reflexivity. Qed.

Lemma missing_face_fails_at_its_turn_witness :
  solve_cube_from_images_traced hsv studio_imread flat_avg
    [ ("U", "u.png"); ("R", "r.png"); ("D", "d.png") ]%string
  = (["U"; "R"]%string, Raise (KeyError "F")).
Proof.
  apply (missing_face_fails_at_its_turn hsv studio_imread flat_avg
           [ ("U", "u.png"); ("R", "r.png"); ("D", "d.png") ]%string
           ["U"; "R"]%string ["D"; "L"; "B"]%string "F").
  - reflexivity.
  - reflexivity.
  - intros g Hg. apply elem_of_cons in Hg as [->|Hg].
    + exists "u.png"%string, (HSV 0 0 255). split; reflexivity.
    + apply list_elem_of_singleton in Hg as ->.
      exists "r.png"%string, (HSV 0 0 255). split; reflexivity.
Defined.

(** C10 does not hold for the report: it is the same whether the
    image that does not load is the one of [U] or the one of [R]. *)
Lemma same_report_for_different_faces :
  recognize_face_colors hsv studio_imread flat_avg "broken.png" "U"
  = Raise (ValueError "Could not load image: broken.png") /\
  recognize_face_colors hsv studio_imread flat_avg "broken.png" "R"
  = Raise (ValueError "Could not load image: broken.png") /\
  solve_cube_from_images hsv studio_imread flat_avg
    [ ("U", "broken.png"); ("R", "r.png"); ("F", "f.png");
      ("D", "d.png"); ("L", "l.png"); ("B", "b.png") ]%string
  = Raise (ValueError "Could not load image: broken.png") /\
  solve_cube_from_images hsv studio_imread flat_avg
    [ ("U", "u.png"); ("R", "broken.png"); ("F", "f.png");
      ("D", "d.png"); ("L", "l.png"); ("B", "b.png") ]%string
  = Raise (ValueError "Could not load image: broken.png").
Proof. split_and!; vm_compute; reflexivity. Qed.

Lemma unloadable_image_aborts_witness :
  recognize_face_colors hsv studio_imread flat_avg "broken.png" "R"
  = Raise (ValueError (String.append "Could not load image: " "broken.png")) /\
  exists e,
    solve_cube_from_images hsv studio_imread flat_avg
      [ ("U", "u.png"); ("R", "broken.png"); ("F", "f.png");
        ("D", "d.png"); ("L", "l.png"); ("B", "b.png") ]%string
    = Raise e.
Proof.
  apply (unloadable_image_aborts hsv studio_imread flat_avg
           [ ("U", "u.png"); ("R", "broken.png"); ("F", "f.png");
             ("D", "d.png"); ("L", "l.png"); ("B", "b.png") ]%string
           "R" "broken.png").
  - right. left.
  - reflexivity.
  - reflexivity.
Defined.

(** * Further properties of the code *)

(** ** solver.py: [_orientation_hint] and [MOVE_NAME] *)

(** X1: [_orientation_hint] raises [IndexError] exactly on the empty move, and
    every move named in [MOVE_NAME] gets the sentence of its face from the
    table, never the general sentence of line 36. *)
Theorem orientation_hint_covers_moves :
  (forall move, _orientation_hint move = Raise IndexError <-> move = EmptyString) /\
  Forall (fun move => exists hint,
            _orientation_hint move = Ok hint /\
            dict_find orientation_base (String.substring 0 1 move) = Some hint /\
            hint <> orientation_default)
         (dict_keys MOVE_NAME).
Proof.
  split.
  - intros [|face rest]; simpl; split; intros Heq; try done.
  - unfold MOVE_NAME, dict_keys. cbn [map fst].
    repeat (apply Forall_cons; split;
      [eexists; split; [reflexivity|]; split; [reflexivity|discriminate]|]).
    apply Forall_nil. done.
Qed.

(** ** color_recognition.py: what the classifier returns *)

Lemma consider_range_skip score avg st c lo hi :
  in_range avg lo hi = false -> consider_range score avg st (c, (lo, hi)) = st.
Proof. intros Hout. unfold consider_range. destruct st as [m b]. by rewrite Hout. Qed.

(** The match, if there is one, is a key of the table. *)
Lemma classify_loop_matched score avg (ranges : dict ascii (hsv * hsv)) m b :
  fst (foldl (consider_range score avg) (m, b) ranges) = m \/
  exists c, fst (foldl (consider_range score avg) (m, b) ranges) = Some c /\
            c ∈ dict_keys ranges.
Proof.
  revert m b. induction ranges as [|[c [lo hi]] ranges IH]; intros m b; cbn [foldl].
  - by left.
  - unfold consider_range at 2 4.
    destruct (in_range avg lo hi); [|destruct (IH m b) as [Hm|(c' & Hc' & Hin)]].
    + destruct (Qlt_le_dec b (score avg lo hi)).
      * right. destruct (IH (Some c) (score avg lo hi)) as [Hm|(c' & Hc' & Hin)].
        -- exists c. split; [exact Hm|left].
        -- exists c'. split; [exact Hc'|by right].
      * destruct (IH m b) as [Hm|(c' & Hc' & Hin)]; [by left|].
        right. exists c'. split; [exact Hc'|by right].
    + by left.
    + right. exists c'. split; [exact Hc'|by right].
Qed.

Lemma analyze_color_fallback_six avg : analyze_color_fallback avg ∈ expected_colors.
Proof.
  unfold analyze_color_fallback, medium_saturation, high_saturation.
  repeat case_match; simplify_eq; six_mem.
Qed.

(** Every sticker is classified as one of the six symbols. *)
Lemma classify_sticker_six avg :
  classify_sticker match_score COLOR_RANGES avg ∈ expected_colors.
Proof.
  unfold classify_sticker.
  destruct (classify_loop_matched match_score avg COLOR_RANGES None 0%Q)
    as [->|(c & -> & Hc)]; [apply analyze_color_fallback_six|].
  unfold COLOR_RANGES, dict_keys in Hc. cbn [map fst] in Hc.
  exact Hc.
Qed.

(** The range with the strictly best score wins, wherever it stands in a table
    with unique keys. *)
Lemma classify_strict_best score (ranges : dict ascii (hsv * hsv)) avg c lo hi :
  NoDup (dict_keys ranges) ->
  (c, (lo, hi)) ∈ ranges ->
  in_range avg lo hi = true ->
  (0 < score avg lo hi)%Q ->
  (forall c' lo' hi', (c', (lo', hi')) ∈ ranges -> c' <> c ->
     in_range avg lo' hi' = true -> (score avg lo' hi' < score avg lo hi)%Q) ->
  classify_sticker score ranges avg = c.
Proof.
  intros Hnd Hin Hrange Hpos Hbest.
  apply list_elem_of_split in Hin as (pre & post & ->).
  unfold dict_keys in Hnd. rewrite map_app in Hnd. cbn [map fst] in Hnd.
  apply NoDup_app in Hnd as (_ & Hpre & Hpost).
  apply NoDup_cons in Hpost as [Hpost _].
  assert (Hother : forall c' lo' hi',
            (c', (lo', hi')) ∈ pre \/ (c', (lo', hi')) ∈ post -> c' <> c).
  { intros c' lo' hi' [Hc'|Hc'] ->.
    - apply (Hpre c); [|left]. apply list_elem_of_fmap. by exists (c, (lo', hi')).
    - apply Hpost. apply list_elem_of_fmap. by exists (c, (lo', hi')). }
  unfold classify_sticker. rewrite foldl_app. cbn [foldl].
  pose proof (classify_loop_below score avg pre None 0%Q _ Hpos) as Hbelow.
  destruct (foldl (consider_range score avg) (None, 0%Q) pre) as [m b].
  cbn [snd] in Hbelow.
  unfold consider_range at 2. rewrite Hrange.
  destruct (Qlt_le_dec b (score avg lo hi)) as [_|Hle].
  - rewrite (classify_loop_keep score avg post); [reflexivity|].
    intros c' lo' hi' Hc' Hr. apply Qlt_le_weak. apply (Hbest c'); try done.
    + apply elem_of_app. right. by right.
    + apply (Hother c' lo' hi'). by right.
  - exfalso. apply (Qlt_irrefl b). eapply Qlt_le_trans; [|exact Hle].
    apply Hbelow. intros c' lo' hi' Hc' Hr. apply (Hbest c'); try done.
    + apply elem_of_app. by left.
    + apply (Hother c' lo' hi'). by left.
Qed.

Lemma COLOR_RANGES_keys_NoDup : NoDup (dict_keys COLOR_RANGES).
Proof. compute_done. Qed.

(** X2: a sample that lies in the range of one symbol of [COLOR_RANGES] and in
    no other range is classified as that symbol. *)
Theorem exclusive_range_wins (avg : hsv) (c : ascii) (lower upper : hsv) :
  (c, (lower, upper)) ∈ COLOR_RANGES ->
  in_range avg lower upper = true ->
  (forall c' lo hi, (c', (lo, hi)) ∈ COLOR_RANGES -> c' <> c ->
     in_range avg lo hi = false) ->
  classify_sticker match_score COLOR_RANGES avg = c.
Proof.
  intros Hin Hrange Hothers.
  apply (classify_strict_best match_score COLOR_RANGES avg c lower upper);
    try done; [apply COLOR_RANGES_keys_NoDup|by eapply COLOR_RANGES_score_pos|].
  intros c' lo hi Hc' Hne Hr. rewrite (Hothers c' lo hi Hc' Hne) in Hr. discriminate.
Qed.

Lemma exclusive_range_wins_witness :
  classify_sticker match_score COLOR_RANGES (HSV 60 200 200) = "F"%char.
Proof.
  apply (exclusive_range_wins (HSV 60 200 200) "F" (HSV 40 120 70) (HSV 80 255 255)).
  - unfold COLOR_RANGES. do 2 right. left.
  - reflexivity.
  - intros c' lo hi Hin Hne. unfold COLOR_RANGES in Hin.
    repeat (apply elem_of_cons in Hin as [[= -> -> ->]|Hin]); try reflexivity;
      [congruence|by inversion Hin].
Defined.

(** X3: a sample whose saturation is below 50 is classified as [U], whatever
    its hue and value: by the range of [U] when it lies inside, by the first
    test of the fallback when it does not. *)
Theorem low_saturation_is_white (avg : hsv) :
  sat avg < 50 -> classify_sticker match_score COLOR_RANGES avg = "U"%char.
Proof.
  intros Hsat.
  assert (Hout : forall c lo hi, (c, (lo, hi)) ∈ COLOR_RANGES -> c <> "U"%char ->
                   in_range avg lo hi = false).
  { intros c lo hi Hin Hne. unfold COLOR_RANGES in Hin.
    destruct (in_range avg lo hi) eqn:Hr; [|reflexivity].
    apply in_range_bounds in Hr.
    repeat (apply elem_of_cons in Hin as [[= -> -> ->]|Hin]); try congruence;
      try (simpl in Hr; lia). by inversion Hin. }
  destruct (in_range avg (HSV 0 0 180) (HSV 180 30 255)) eqn:HU.
  - apply (classify_strict_best match_score COLOR_RANGES avg "U"
             (HSV 0 0 180) (HSV 180 30 255) COLOR_RANGES_keys_NoDup); try done.
    + unfold COLOR_RANGES. left.
    + eapply (COLOR_RANGES_score_pos avg "U"); [unfold COLOR_RANGES; left|done].
    + intros c' lo hi Hc' Hne Hr. rewrite (Hout c' lo hi Hc' Hne) in Hr. discriminate.
  - unfold classify_sticker.
    rewrite (classify_loop_keep match_score avg COLOR_RANGES None 0%Q).
    + cbn [fst]. unfold analyze_color_fallback.
      by destruct (Z.ltb_spec (sat avg) 50); [|lia].
    + intros c lo hi Hin Hr. exfalso.
      destruct (decide (c = "U"%char)) as [->|Hne].
      * unfold COLOR_RANGES in Hin.
        repeat (apply elem_of_cons in Hin as [[= -> ->]|Hin]); try congruence.
        by inversion Hin.
      * rewrite (Hout c lo hi Hin Hne) in Hr. discriminate.
Qed.

Lemma low_saturation_is_white_witness :
  classify_sticker match_score COLOR_RANGES (HSV 90 40 100) = "U"%char.
Proof. apply (low_saturation_is_white (HSV 90 40 100)). reflexivity. Defined.

(** A larger denominator gives a smaller score. *)
Lemma score_lt_denominators (d1 d2 : Q) :
  (0 < d2)%Q -> (d2 < d1)%Q -> (1 / d1 < 1 / d2)%Q.
Proof.
  intros Hpos Hlt. unfold Qdiv. rewrite !Qmult_1_l.
  apply (Qinv_lt_contravar d2 d1); [exact Hpos| |exact Hlt].
  by eapply Qlt_trans.
Qed.

Lemma in_range_intro avg lower upper :
  hue lower <= hue avg <= hue upper ->
  sat lower <= sat avg <= sat upper ->
  val lower <= val avg <= val upper ->
  in_range avg lower upper = true.
Proof.
  intros Hh Hs Hv. unfold in_range.
  repeat (apply andb_true_intro; split); apply Z.leb_le; lia.
Qed.

(** Compare the scores of two saturated ranges for a sample of known hue:
    the saturation and value terms are the same on both sides. *)
Ltac compare_scores s v :=
  unfold match_score; cbn [hue sat val];
  pose proof (Qabs_nonneg (inject_Z s - inject_Z (120 + 255) / 2));
  pose proof (Qabs_nonneg (inject_Z v - inject_Z (70 + 255) / 2));
  generalize dependent (Qabs (inject_Z s - inject_Z (120 + 255) / 2));
  generalize dependent (Qabs (inject_Z v - inject_Z (70 + 255) / 2));
  intros vd Hvd sd Hsd;
  apply score_lt_denominators;
  repeat match goal with
  | |- context [Qmin ?a ?b] =>
      let r := eval vm_compute in (Qmin a b) in change (Qmin a b) with r
  end;
  unfold Qdiv; change (/ 180)%Q with (1 # 180)%Q; change (/ 255)%Q with (1 # 255)%Q; lra.

(** One band of hues: the given range holds the sample and beats every other
    range that holds it. *)
Ltac settle_band c lo hi :=
  apply (classify_strict_best match_score COLOR_RANGES _ c lo hi COLOR_RANGES_keys_NoDup);
  [ unfold COLOR_RANGES; rewrite !elem_of_cons; tauto
  | apply in_range_intro; simpl; lia
  | apply (COLOR_RANGES_score_pos _ c);
      [unfold COLOR_RANGES; rewrite !elem_of_cons; tauto|apply in_range_intro; simpl; lia]
  | let c' := fresh "c'" in let lo' := fresh "lo'" in let hi' := fresh "hi'" in
    let Hin := fresh "Hin" in let Hne := fresh "Hne" in let Hr := fresh "Hr" in
    intros c' lo' hi' Hin Hne Hr; apply in_range_bounds in Hr; unfold COLOR_RANGES in Hin;
    repeat (apply elem_of_cons in Hin as [[= -> -> ->]|Hin]); try congruence;
    try (by inversion Hin); simpl in Hr; try lia ].

(** X4: for a saturated sample (saturation 120-255, value 70-255) the hue
    decides the symbol: 0-8 is [R], 9-18 is [L], 19-35 is [D], 40-80 is [F]
    and 90-130 is [B].  Where the ranges of [R] and [L], or of [L] and [D],
    overlap, the range whose centre is nearer wins.  Scores are exact. *)
Theorem saturated_hue_bands (h s v : Z) :
  120 <= s <= 255 -> 70 <= v <= 255 ->
  (0 <= h <= 8 -> classify_sticker match_score COLOR_RANGES (HSV h s v) = "R"%char) /\
  (9 <= h <= 18 -> classify_sticker match_score COLOR_RANGES (HSV h s v) = "L"%char) /\
  (19 <= h <= 35 -> classify_sticker match_score COLOR_RANGES (HSV h s v) = "D"%char) /\
  (40 <= h <= 80 -> classify_sticker match_score COLOR_RANGES (HSV h s v) = "F"%char) /\
  (90 <= h <= 130 -> classify_sticker match_score COLOR_RANGES (HSV h s v) = "B"%char).
Proof.
  intros Hs Hv. split_and!; intros Hh.
  - settle_band "R"%char (HSV 0 120 70) (HSV 10 255 255).
    assert (Hcases : h = 5 \/ h = 6 \/ h = 7 \/ h = 8) by lia.
    repeat destruct Hcases as [->|Hcases]; try subst h; compare_scores s v.
  - settle_band "L"%char (HSV 5 120 70) (HSV 20 255 255).
    + assert (Hcases : h = 9 \/ h = 10) by lia.
      repeat destruct Hcases as [->|Hcases]; try subst h; compare_scores s v.
    + assert (Hcases : h = 15 \/ h = 16 \/ h = 17 \/ h = 18) by lia.
      repeat destruct Hcases as [->|Hcases]; try subst h; compare_scores s v.
  - settle_band "D"%char (HSV 15 120 70) (HSV 35 255 255).
    assert (Hcases : h = 19 \/ h = 20) by lia.
    repeat destruct Hcases as [->|Hcases]; try subst h; compare_scores s v.
  - settle_band "F"%char (HSV 40 120 70) (HSV 80 255 255).
  - settle_band "B"%char (HSV 90 120 70) (HSV 130 255 255).
Qed.

Lemma saturated_hue_bands_witness :
  (0 <= 7 <= 8 -> classify_sticker match_score COLOR_RANGES (HSV 7 200 200) = "R"%char) /\
  (9 <= 7 <= 18 -> classify_sticker match_score COLOR_RANGES (HSV 7 200 200) = "L"%char) /\
  (19 <= 7 <= 35 -> classify_sticker match_score COLOR_RANGES (HSV 7 200 200) = "D"%char) /\
  (40 <= 7 <= 80 -> classify_sticker match_score COLOR_RANGES (HSV 7 200 200) = "F"%char) /\
  (90 <= 7 <= 130 -> classify_sticker match_score COLOR_RANGES (HSV 7 200 200) = "B"%char).
Proof. apply (saturated_hue_bands 7 200 200); lia. Defined.

(** Decide the comparisons of the fallback tree on the saturation and the
    value, once the hue is known. *)
Ltac walk_fallback :=
  unfold analyze_color_fallback, medium_saturation, high_saturation;
  cbn [hue sat val]; simpl;
  repeat match goal with
  | |- context [?a <? ?b] => destruct (Z.ltb_spec a b)
  end; simpl; try reflexivity; try lia.

(** X5: the gaps of the fallback tree.  For a sample of saturation 50 or more
    and value 200 or less, the fallback answers [U] when the saturation is
    exactly 120 (between the medium and the high block), and when the hue is
    one of the boundaries of the block in charge: 15, 35, 70, 130, 165 below
    saturation 120, and 10, 30, 80, 130, 170 above it. *)
Theorem fallback_gaps_are_white (h s v : Z) :
  50 <= s -> v <= 200 ->
  (s = 120 -> analyze_color_fallback (HSV h s v) = "U"%char) /\
  (s < 120 -> h = 15 \/ h = 35 \/ h = 70 \/ h = 130 \/ h = 165 ->
     analyze_color_fallback (HSV h s v) = "U"%char) /\
  (120 < s -> h = 10 \/ h = 30 \/ h = 80 \/ h = 130 \/ h = 170 ->
     analyze_color_fallback (HSV h s v) = "U"%char).
Proof.
  intros Hs Hv. split_and!.
  - intros ->. walk_fallback.
  - intros Hlt Hh. repeat destruct Hh as [->|Hh]; try subst h; walk_fallback.
  - intros Hgt Hh. repeat destruct Hh as [->|Hh]; try subst h; walk_fallback.
Qed.

Lemma fallback_gaps_are_white_witness :
  (120 = 120 -> analyze_color_fallback (HSV 37 120 100) = "U"%char) /\
  (120 < 120 -> 37 = 15 \/ 37 = 35 \/ 37 = 70 \/ 37 = 130 \/ 37 = 165 ->
     analyze_color_fallback (HSV 37 120 100) = "U"%char) /\
  (120 < 120 -> 37 = 10 \/ 37 = 30 \/ 37 = 80 \/ 37 = 130 \/ 37 = 170 ->
     analyze_color_fallback (HSV 37 120 100) = "U"%char).
Proof. apply (fallback_gaps_are_white 37 120 100); lia. Defined.

(** ** [fix_color_distribution]: which stickers it changes *)

(** A loop that does not raise keeps what each run of its body keeps. *)
Lemma for_in_preserves {A S : Type} (I : S -> Prop)
    (body : A -> S -> result (control S)) (xs : list A) (s s' : S) :
  (forall x s s1, I s -> body x s = Ok (Continue s1) \/ body x s = Ok (Break s1) -> I s1) ->
  I s -> for_in xs body s = Ok s' -> I s'.
Proof.
  intros Hstep. revert s. induction xs as [|x xs IH]; intros s HI Hrun; simpl in Hrun.
  - by injection Hrun as <-.
  - destruct (body x s) as [[s1|s1]|e] eqn:Hbody; [| |discriminate].
    + apply (IH s1); [|exact Hrun]. apply (Hstep x s s1 HI). by left.
    + injection Hrun as <-. apply (Hstep x s s1 HI). by right.
Qed.

(** Lines 174-182 write only to positions that hold [color]. *)
Lemma cap_at_frame a n l (d : dict ascii Z) e l' d' e' :
  for_in (range n) (cap_at a) (l, d, e) = Ok (l', d', e') ->
  forall j x, l !! j = Some x -> x <> a -> l' !! j = Some x.
Proof.
  apply (for_in_preserves
    (fun st : list ascii * dict ascii Z * Z =>
       forall j x, l !! j = Some x -> x <> a -> st.1.1 !! j = Some x)); [|done].
  intros i [[l1 d1] e1] s1 HI Hbody j x Hj Hx. specialize (HI j x Hj Hx). cbn in HI.
  unfold cap_at, list_getitem, list_setitem, dict_iadd, dict_getitem, mbind, result_bind
    in Hbody.
  destruct Hbody as [Hbody|Hbody]; repeat case_match; simplify_eq; cbn; try done.
  all: rewrite list_lookup_insert_ne; [done|].
  all: intros ->; match goal with H : bool_decide _ && _ = true |- _ =>
         apply andb_true_iff in H as [H _]; apply bool_decide_eq_true in H end; congruence.
Qed.

(** Lines 167-182: the final check either changes nothing (no colour is on
    more than five stickers) or brings the one colour that is down to four,
    writing only to positions that hold it. *)
Lemma final_check_shape l a b :
  length l = 9%nat -> a ∈ l -> b ∈ l -> a <> b ->
  exists out, final_check l = Ok out /\ length out = 9%nat /\
    ((out = l /\ forall c, occ c l <= 5) \/
     exists m, 5 < occ m l /\ occ m out = 4 /\
       forall j x, l !! j = Some x -> x <> m -> out !! j = Some x).
Proof.
  intros Hlen Ha Hb Hab. unfold final_check.
  pose proof (count_colors_NoDup l) as Hnd.
  set (K0 := dict_keys (count_colors l)) in *.
  destruct (for_in_list_inv
    (fun pre st => let '(l1, d1) := st in
       length l1 = 9%nat /\ tally l1 d1 /\ dict_keys d1 = K0 /\
       ((l1 = l /\ forall c, c ∈ pre -> occ c l <= 5) \/
        (exists m, 5 < occ m l /\ occ m l1 = 4 /\
           (forall j x, l !! j = Some x -> x <> m -> l1 !! j = Some x) /\
           forall c, occ c l1 <= 5)))
    (fun _ => False)
    cap_color K0 (l, count_colors l)) as (s' & Hs' & [HI|[]]).
  - split_and!; try done; [apply count_colors_tally|].
    left. split; [done|]. intros c Hc. inversion Hc.
  - intros pre k post [l1 d1] Hsplit (Hlen1 & Htally1 & Hkeys & Hshape).
    assert (Hk : k ∈ dict_keys d1).
    { rewrite Hkeys, Hsplit. apply elem_of_app. right. left. }
    unfold cap_color, body_post.
    rewrite (dict_getitem_Some _ _ _ (tally_find l1 d1 k Htally1 Hk)). run.
    destruct (5 <? occ k l1) eqn:Hgt.
    + apply Z.ltb_lt in Hgt.
      destruct Hshape as [[-> Hpre]|(m & _ & _ & _ & Hall)];
        [|specialize (Hall k); lia].
      assert (Hcomp : exists b', b' ∈ dict_keys d1 /\ k <> b').
      { rewrite Hkeys. destruct (decide (k = a)) as [->|Hka].
        - exists b. split; [by apply count_colors_keys|done].
        - exists a. split; [by apply count_colors_keys|done]. }
      destruct Hcomp as (b' & Hb' & Hkb').
      destruct (cap_loop l d1 k b' Hlen1 Htally1) as
        (l' & d' & e' & Hrun & Hlen' & Htally' & Hkeys' & _ & Hall & Hfour);
        try done; [by rewrite Hkeys|].
      pose proof (cap_at_frame _ _ _ _ _ _ _ _ Hrun) as Hframe.
      rewrite Hrun. run. split_and!; try done; [congruence|].
      right. exists k. by split_and!.
    + apply Z.ltb_ge in Hgt. split_and!; try done.
      destruct Hshape as [[-> Hpre]|Hm]; [|by right].
      left. split; [done|]. intros c Hc.
      apply elem_of_app in Hc as [Hc|Hc]; [by apply Hpre|].
      by apply list_elem_of_singleton in Hc as ->.
  - destruct s' as [l' d']. destruct HI as (Hlen' & Htally' & Hkeys & Hshape).
    run. rewrite Hs'. exists l'. split_and!; try done.
    destruct Hshape as [[-> Hpre]|(m & Hm & Hfour & Hframe & _)].
    + left. split; [done|]. intros c.
      destruct (decide (c ∈ l)) as [Hc|Hc].
      * apply Hpre. by apply (count_colors_keys l c).
      * apply occ_zero_not_elem in Hc. lia.
    + right. by exists m.
Qed.

(** Lines 158-163 with the tally: position [i] takes the first replacement
    colour counted below 2, or keeps its colour when every replacement colour
    is already on two stickers. *)
Lemma find_underrepresented_tally l (d : dict ascii Z) i m v rs :
  l !! i = Some m -> tally l d -> m ∈ dict_keys d -> (forall r, r ∈ rs -> r <> m) ->
  exists l' d',
    for_in rs (try_underrepresented (m, v) i) (l, d) = Ok (l', d') /\
    tally l' d' /\ m ∈ dict_keys d' /\
    ((l' = l /\ forall r, r ∈ rs -> 2 <= occ r l) \/
     exists r, r ∈ rs /\ occ r l < 2 /\ l' = <[i:=r]> l).
Proof.
  intros Hi Htally Hm Hrs.
  destruct (for_in_list_inv
    (fun pre st => st = (l, d) /\ forall r, r ∈ pre -> 2 <= occ r l)
    (fun st => let '(l', d') := st in
       tally l' d' /\ m ∈ dict_keys d' /\
       exists r, r ∈ rs /\ occ r l < 2 /\ l' = <[i:=r]> l)
    (try_underrepresented (m, v) i) rs (l, d)) as (s' & Hs' & [[-> Hnone]|HQ]).
  - split; [reflexivity|]. intros r Hr. inversion Hr.
  - intros pre r post st Hsplit [-> Hpre]. unfold try_underrepresented, body_post.
    assert (Hr : r ∈ rs). { rewrite Hsplit. apply elem_of_app. right. left. }
    rewrite (Htally r).
    destruct (occ r l <? 2) eqn:Hlt.
    + apply Z.ltb_lt in Hlt. rewrite (list_setitem_Some l i m r Hi). run. cbn [fst].
      pose proof (tally_find l d m Htally Hm) as Hfm.
      rewrite (dict_iadd_Some _ m (occ m l))
        by (rewrite dict_find_set_ne; [done|by apply Hrs]).
      run. split_and!.
      * intros c. unfold dict_get. rewrite !dict_find_set, (occ_insert c l i m r Hi).
        specialize (Htally c). unfold dict_get in Htally. unfold same.
        pose proof (Hrs r Hr).
        destruct (decide (m = c)), (decide (r = c)); subst; try congruence; lia.
      * apply dict_find_is_Some. rewrite dict_find_set_eq. by eexists.
      * by exists r.
    + apply Z.ltb_ge in Hlt. split; [reflexivity|].
      intros r' Hr'. apply elem_of_app in Hr' as [Hr'|Hr']; [by apply Hpre|].
      by apply list_elem_of_singleton in Hr' as ->.
  - exists l, d. split_and!; try done. by left.
  - destruct s' as [l' d']. destruct HQ as (Htally' & Hm' & Hex). exists l', d'.
    split_and!; try done. by right.
Qed.

(** Nine stickers cannot hold four of one of the six colours and two of each
    of the other five. *)
Lemma crowded_face l m :
  length l = 9%nat -> m ∈ expected_colors -> 4 <= occ m l ->
  (forall r, r ∈ filter (fun c => c <> m) target_colors -> 2 <= occ r l) -> False.
Proof.
  intros Hlen Hm Hfour Hall. pose proof (occ_six_sum_le l) as Hsum. rewrite Hlen in Hsum.
  assert (Hothers : forall r, r ∈ expected_colors -> r <> m -> 2 <= occ r l).
  { intros r Hr Hne. apply Hall. by apply list_elem_of_filter. }
  six_inst Hothers.
  six_cases Hm;
    repeat match goal with
    | H : ?x <> ?y -> _ |- _ =>
        first [specialize (H ltac:(discriminate)) | clear H]
    end; lia.
Qed.

(** Lines 150-164 on a face with eight stickers of the most common colour:
    only positions that hold it are written, no other colour goes above two
    stickers, and three stickers of the most common colour remain. *)
Lemma spread_shape l m b :
  length l = 9%nat -> m ∈ l -> b ∈ l -> b <> m -> 7 < occ m l ->
  exists l' d' e',
    spread_most_common (m, occ m l) (l, count_colors l) = Ok (l', d', e') /\
    length l' = 9%nat /\
    (forall j x, l !! j = Some x -> x <> m -> l' !! j = Some x) /\
    (forall c, c <> m -> occ c l' <= 2) /\
    3 <= occ m l' /\
    (m ∈ expected_colors -> occ m l' = 3).
Proof.
  intros Hlen Hm Hb Hbm Hgt. unfold spread_most_common. cbn [fst snd].
  set (rs := filter (fun c => c <> m) target_colors).
  assert (Hrs : forall r, r ∈ rs -> r <> m).
  { intros r Hr. by apply list_elem_of_filter in Hr as [? _]. }
  destruct (for_range_inv
    (fun (i : nat) st => let '(l1, d1, e1) := st in
       length l1 = 9%nat /\ tally l1 d1 /\ m ∈ dict_keys d1 /\
       (forall j x, l !! j = Some x -> x <> m -> l1 !! j = Some x) /\
       (forall c, c <> m -> occ c l1 <= 2) /\
       e1 <= occ m l1 - 3 /\ 3 <= occ m l1 /\
       (m ∈ expected_colors ->
          e1 = occ m l1 - 3 /\ occ m l1 - 3 <= occ m (drop i l1)))
    (fun _ => False)
    (spread_at (m, occ m l) rs) (length l) (l, count_colors l, occ m l - 3))
    as (s' & Hs' & [HI|[]]).
  - rewrite drop_0. split_and!; try done; try lia.
    + apply count_colors_tally.
    + by apply count_colors_keys.
    + intros c Hc. pose proof (occ_two_le_length m c l ltac:(done)). lia.
  - intros i [[l1 d1] e1] Hi
      (Hlen1 & Htally1 & Hm1 & Hframe & Hsmall & He & Hthree & Hexact).
    destruct (lookup_lt_is_Some_2 l1 i ltac:(lia)) as [x Hx].
    unfold spread_at, body_post.
    rewrite (list_getitem_Some l1 i x Hx). run. cbn [fst].
    pose proof (occ_drop_lookup m l1 i x Hx) as Hsplit.
    destruct (bool_decide (x = m) && (0 <? e1)) eqn:Hcond.
    + apply andb_true_iff in Hcond as [Hxm Hlt].
      apply bool_decide_eq_true in Hxm as ->. apply Z.ltb_lt in Hlt.
      destruct (find_underrepresented_tally l1 d1 i m (occ m l) rs Hx Htally1 Hm1 Hrs)
        as (l' & d' & -> & Htally' & Hm' & Hl').
      run. destruct Hl' as [[-> Hnone]|(r & Hr & Hrlt & ->)].
      * split_and!; try done; try lia.
        intros Hsix. exfalso. apply (crowded_face l1 m Hlen1 Hsix); [lia|exact Hnone].
      * pose proof (Hrs r Hr) as Hrm.
        rewrite length_insert, drop_S_insert.
        rewrite (occ_insert m l1 i m r Hx), same_refl, (same_ne r m Hrm) in *.
        split_and!; try done; try lia.
        -- intros j y Hj Hy. specialize (Hframe j y Hj Hy).
           rewrite list_lookup_insert_ne; [done|]. intros ->. congruence.
        -- intros c Hc. rewrite (occ_insert c l1 i m r Hx), (same_ne m c) by done.
           unfold same. destruct (decide (r = c)) as [<-|_]; [lia|].
           specialize (Hsmall c Hc). lia.
        -- intros Hsix. destruct (Hexact Hsix). lia.
    + split_and!; try done. intros Hsix. destruct (Hexact Hsix) as [Heq Hdrop].
      split; [done|].
      apply andb_false_iff in Hcond as [Hxm|Hlt].
      * apply bool_decide_eq_false in Hxm. rewrite (same_ne x m Hxm) in Hsplit. lia.
      * apply Z.ltb_ge in Hlt. pose proof (occ_nonneg m (drop (S i) l1)). lia.
  - destruct s' as [[l' d'] e'].
    destruct HI as (Hlen' & Htally' & Hm' & Hframe & Hsmall & He & Hthree & Hexact).
    exists l', d', e'. split_and!; try done.
    intros Hsix. destruct (Hexact Hsix) as [Heq Hdrop].
    replace (length l) with (length l') in Hdrop by congruence.
    rewrite occ_drop_all in Hdrop. lia.
Qed.

(** What [fix_color_distribution] does to nine stickers, position by
    position: nothing, or a repair of the one colour [m] that is on more than
    six stickers. *)
Lemma fix_shape l label :
  length l = 9%nat ->
  exists out, fix_color_distribution l label = Ok out /\
    ((out = l /\ ((forall x y, x ∈ l -> y ∈ l -> x = y) \/ forall c, occ c l <= 6)) \/
     exists m, 6 < occ m l /\
       (forall j x, l !! j = Some x -> x <> m -> out !! j = Some x) /\
       3 <= occ m out /\
       (occ m l = 7 -> occ m out = 4) /\
       (occ m l = 8 -> m ∈ expected_colors -> occ m out = 3)).
Proof.
  intros Hlen. unfold fix_color_distribution.
  pose proof (count_colors_NoDup l) as Hnd.
  pose proof (count_colors_tally l) as Htally.
  pose proof (count_colors_keys l) as Hkeys.
  destruct (1 <? length (count_colors l))%nat eqn:Hmany.
  - apply Nat.ltb_lt in Hmany.
    destruct (max_item_spec (count_colors l)) as (m & v & Hmax & Hmin & Hbig).
    { intros Heq. rewrite Heq in Hmany. simpl in Hmany. lia. }
    rewrite Hmax. run. cbn [snd].
    pose proof (tally_elem l _ m v Htally Hnd Hmin) as ->.
    assert (Hm : m ∈ l) by (by eapply Hkeys, dict_elem_keys).
    destruct (6 <? occ m l) eqn:Hsix.
    + apply Z.ltb_lt in Hsix.
      destruct (second_key (count_colors l) m Hnd Hmany) as (b & Hb & Hbm).
      apply Hkeys in Hb.
      pose proof (occ_two_le_length m b l ltac:(done)) as Htwo. rewrite Hlen in Htwo.
      assert (Hbpos : 0 < occ b l) by (by apply occ_pos_elem).
      destruct (7 <? occ m l) eqn:Hseven.
      * apply Z.ltb_lt in Hseven.
        destruct (spread_shape l m b Hlen Hm Hb Hbm Hseven) as
          (l1 & d1 & e1 & -> & Hlen1 & Hframe1 & Hsmall & Hthree & Hexact).
        run.
        assert (Hm1 : m ∈ l1) by (apply occ_pos_elem; lia).
        assert (Hb1 : b ∈ l1).
        { apply list_elem_of_lookup in Hb as [j Hj].
          apply list_elem_of_lookup. exists j. by apply Hframe1. }
        destruct (final_check_shape l1 m b Hlen1 Hm1 Hb1) as (out & -> & Hlen' & Hshape);
          [done|].
        exists out. split; [reflexivity|]. right. exists m.
        destruct Hshape as [[-> Hall]|(m' & Hm' & Hfour & Hframe2)].
        -- split_and!; try done; lia.
        -- assert (m' = m) as ->.
           { destruct (decide (m' = m)) as [|Hne]; [done|].
             specialize (Hsmall m' Hne). lia. }
           split_and!; try lia.
           ++ intros j x Hj Hx. apply Hframe2; [|exact Hx]. by apply Hframe1.
           ++ intros _ Hm6. specialize (Hexact Hm6). lia.
      * apply Z.ltb_ge in Hseven. run.
        destruct (final_check_shape l m b Hlen Hm Hb) as (out & -> & Hlen' & Hshape);
          [done|].
        exists out. split; [reflexivity|]. right. exists m.
        destruct Hshape as [[-> Hall]|(m' & Hm' & Hfour & Hframe2)].
        -- specialize (Hall m). lia.
        -- assert (m' = m) as ->.
           { destruct (decide (m' = m)) as [|Hne]; [done|].
             pose proof (occ_two_le_length m' m l Hne). lia. }
           split_and!; try done; lia.
    + apply Z.ltb_ge in Hsix. exists l. split; [done|].
      left. split; [reflexivity|]. right. intros c.
      destruct (decide (c ∈ l)) as [Hc|Hc].
      * apply Hkeys in Hc. pose proof (tally_find l _ c Htally Hc) as Hf.
        apply dict_find_Some_elem in Hf. specialize (Hbig c _ Hf). lia.
      * apply occ_zero_not_elem in Hc. lia.
  - apply Nat.ltb_ge in Hmany. exists l. split; [done|].
    left. split; [reflexivity|]. left. intros x y Hx Hy.
    apply (single_key (count_colors l)); [exact Hmany|by apply Hkeys|by apply Hkeys].
Qed.

(** X6: a face on which no colour is on more than six stickers, and a face of
    a single colour, come back from [fix_color_distribution] as they are,
    whatever their length. *)
Theorem fix_leaves_plausible_faces (face_colors : list ascii) (face_label : string) :
  (forall c, occ c face_colors <= 6) \/
  (forall x y, x ∈ face_colors -> y ∈ face_colors -> x = y) ->
  fix_color_distribution face_colors face_label = Ok face_colors.
Proof.
  intros Hplain. unfold fix_color_distribution.
  pose proof (count_colors_NoDup face_colors) as Hnd.
  pose proof (count_colors_tally face_colors) as Htally.
  pose proof (count_colors_keys face_colors) as Hkeys.
  destruct (1 <? length (count_colors face_colors))%nat eqn:Hmany; [|reflexivity].
  apply Nat.ltb_lt in Hmany.
  destruct (max_item_spec (count_colors face_colors)) as (m & v & Hmax & Hmin & Hbig).
  { intros Heq. rewrite Heq in Hmany. simpl in Hmany. lia. }
  rewrite Hmax. run. cbn [snd].
  pose proof (tally_elem face_colors _ m v Htally Hnd Hmin) as ->.
  destruct Hplain as [Hsix|Hone].
  - specialize (Hsix m). by destruct (Z.ltb_spec 6 (occ m face_colors)); [lia|].
  - exfalso. destruct (second_key (count_colors face_colors) m Hnd Hmany) as (b & Hb & Hbm).
    apply Hbm. apply Hone; apply Hkeys; [exact Hb|by eapply dict_elem_keys].
Qed.

Lemma fix_leaves_plausible_faces_witness :
  fix_color_distribution (list_ascii_of_string "UUUUUUUUU") "U"
  = Ok (list_ascii_of_string "UUUUUUUUU").
Proof.
  apply (fix_leaves_plausible_faces (list_ascii_of_string "UUUUUUUUU") "U").
  right. intros x y Hx Hy. simpl in Hx, Hy.
  repeat (apply elem_of_cons in Hx as [->|Hx]); [..|by inversion Hx];
    repeat (apply elem_of_cons in Hy as [->|Hy]); try reflexivity; by inversion Hy.
Defined.

(** X7: on nine stickers, [fix_color_distribution] changes a sticker only if
    its colour is on more than six of them: every sticker of another colour
    keeps its place and its colour. *)
Theorem fix_changes_only_the_skewed_colour (face_colors : list ascii) (face_label : string) :
  length face_colors = 9%nat ->
  exists out, fix_color_distribution face_colors face_label = Ok out /\
    forall j x, face_colors !! j = Some x -> out !! j <> Some x -> 6 < occ x face_colors.
Proof.
  intros Hlen.
  destruct (fix_shape face_colors face_label Hlen) as (out & Hout & Hshape).
  exists out. split; [exact Hout|]. intros j x Hj Hchanged.
  destruct Hshape as [[-> _]|(m & Hm & Hframe & _)]; [contradiction|].
  destruct (decide (x = m)) as [->|Hne]; [exact Hm|].
  exfalso. apply Hchanged. by apply Hframe.
Qed.

Lemma fix_changes_only_the_skewed_colour_witness :
  exists out, fix_color_distribution (list_ascii_of_string "RRRFRRRRU") "U" = Ok out /\
    forall j x, list_ascii_of_string "RRRFRRRRU" !! j = Some x -> out !! j <> Some x ->
                6 < occ x (list_ascii_of_string "RRRFRRRRU").
Proof.
  apply (fix_changes_only_the_skewed_colour (list_ascii_of_string "RRRFRRRRU") "U").
  reflexivity.
Defined.

(** X8: on nine stickers of more than one colour, a colour on seven stickers
    ends on exactly four, and one of the six colours on eight stickers ends on
    exactly three. *)
Theorem fix_final_count (face_colors : list ascii) (face_label : string) (a b : ascii) :
  length face_colors = 9%nat -> a ∈ expected_colors ->
  a <> b -> b ∈ face_colors -> 6 < occ a face_colors ->
  exists out, fix_color_distribution face_colors face_label = Ok out /\
    (occ a face_colors = 7 -> occ a out = 4) /\
    (occ a face_colors = 8 -> occ a out = 3).
Proof.
  intros Hlen Ha6 Hab Hb Ha.
  destruct (fix_shape face_colors face_label Hlen) as (out & Hout & Hshape).
  exists out. split; [exact Hout|].
  destruct Hshape as [[_ [Hone|Hsix]]|(m & Hm & _ & _ & Hseven & Height)].
  - exfalso. apply Hab. apply Hone; [|exact Hb]. apply occ_pos_elem. lia.
  - specialize (Hsix a). lia.
  - assert (m = a) as ->.
    { destruct (decide (m = a)) as [|Hne]; [done|].
      pose proof (occ_two_le_length m a face_colors Hne). lia. }
    split; [exact Hseven|]. intros Heq. by apply Height.
Qed.

Lemma fix_final_count_witness :
  exists out, fix_color_distribution (list_ascii_of_string "RRRRRRRRU") "U" = Ok out /\
    (occ "R" (list_ascii_of_string "RRRRRRRRU") = 7 -> occ "R" out = 4) /\
    (occ "R" (list_ascii_of_string "RRRRRRRRU") = 8 -> occ "R" out = 3).
Proof.
  apply (fix_final_count (list_ascii_of_string "RRRRRRRRU") "U" "R" "U").
  - reflexivity.
  - six_mem.
  - discriminate.
  - apply list_elem_of_lookup. by exists 8%nat.
  - reflexivity.
Defined.

(** ** [validate_and_fix_cube_state]: the repair is a chain of retargets *)

Lemma shed_retargets t n l (d : dict ascii Z) e l' d' e' :
  for_in (range n) (shed_excess_at t) (l, d, e) = Ok (l', d', e') ->
  length l = 54%nat -> counts_agree l d -> t ∈ expected_colors -> e = occ t l - 9 ->
  rtc retarget l l'.
Proof.
  intros Hrun Hlen Hagree Ht He.
  apply (for_in_preserves
    (fun st : loop_state => let '(l1, d1, e1) := st in
       length l1 = 54%nat /\ counts_agree l1 d1 /\ e1 = occ t l1 - 9 /\ rtc retarget l l1)
    (shed_excess_at t) (range n) (l, d, e) (l', d', e')); [|done|exact Hrun].
  intros i [[l1 d1] e1] s1 (Hlen1 & Hagree1 & He1 & Hchain) Hbody.
  unfold shed_excess_at, list_getitem in Hbody.
  destruct (l1 !! i) as [x|] eqn:Hx; [|by destruct Hbody].
  unfold mbind, result_bind in Hbody.
  destruct (bool_decide (x = t) && (0 <? e1)) eqn:Hcond.
  - apply andb_true_iff in Hcond as [Hxt Hlt].
    apply bool_decide_eq_true in Hxt as ->. apply Z.ltb_lt in Hlt.
    destruct (find_replacement l1 d1 e1 i t Hlen1 Hagree1 Ht Hx ltac:(lia))
      as (r & d2 & Hr & Hrlt & Hagree2 & Heq).
    rewrite Heq in Hbody. destruct Hbody as [[= <-]|[=]].
    rewrite length_insert. split_and!; try done.
    + rewrite (occ_insert t l1 i t r Hx), same_refl, (same_ne r t) by (intros ->; lia). lia.
    + eapply rtc_r; [exact Hchain|]. eapply (retarget_at l1 _ i t r); try done. lia.
  - by destruct Hbody as [[= <-]|[=]].
Qed.

Lemma fill_retargets t n l (d : dict ascii Z) nd l' d' nd' :
  for_in (range n) (fill_need_at t) (l, d, nd) = Ok (l', d', nd') ->
  length l = 54%nat -> counts_agree l d -> t ∈ expected_colors -> nd = 9 - occ t l ->
  rtc retarget l l'.
Proof.
  intros Hrun Hlen Hagree Ht Hnd.
  apply (for_in_preserves
    (fun st : loop_state => let '(l1, d1, nd1) := st in
       length l1 = 54%nat /\ counts_agree l1 d1 /\ nd1 = 9 - occ t l1 /\ rtc retarget l l1)
    (fill_need_at t) (range n) (l, d, nd) (l', d', nd')); [|done|exact Hrun].
  intros i [[l1 d1] nd1] s1 (Hlen1 & Hagree1 & Hnd1 & Hchain) Hbody.
  unfold fill_need_at in Hbody.
  destruct (nd1 <=? 0) eqn:Hdone; [by destruct Hbody as [[=]|[= <-]]|].
  apply Z.leb_gt in Hdone.
  destruct (l1 !! i) as [x|] eqn:Hx.
  - destruct (find_excess l1 d1 nd1 i t x Hagree1 Ht Hx ltac:(lia))
      as [[Heq _]|(d2 & Hxin & Hxgt & Hagree2 & Heq)];
      rewrite Heq in Hbody; unfold mbind, result_bind in Hbody;
      destruct Hbody as [[= <-]|[=]]; [done|].
    rewrite length_insert. split_and!; try done.
    + rewrite (occ_insert t l1 i x t Hx), same_refl, (same_ne x t) by (intros ->; lia). lia.
    + eapply rtc_r; [exact Hchain|]. eapply (retarget_at l1 _ i x t); try done. lia.
  - (* an index beyond the list: the scan reads nothing or raises *)
    apply lookup_ge_None in Hx.
    assert (Hraise : forall cs, for_in cs (try_excess_color t i) (l1, d1, nd1)
                                = Ok (l1, d1, nd1) \/
                                exists e, for_in cs (try_excess_color t i) (l1, d1, nd1)
                                          = Raise e).
    { induction cs as [|c cs IH]; [by left|]. simpl. unfold dict_getitem.
      destruct (dict_find d1 c) as [vc|]; [|right; by eexists]. run.
      destruct (9 <? vc); [|exact IH].
      unfold list_getitem. rewrite (proj2 (lookup_ge_None l1 i) Hx). right. by eexists. }
    destruct (Hraise expected_colors) as [Heq|[e Heq]]; rewrite Heq in Hbody;
      unfold mbind, result_bind in Hbody; destruct Hbody as [[= <-]|[=]].
    done.
Qed.

Lemma fix_target_retargets l (d : dict ascii Z) t :
  length l = 54%nat -> counts_agree l d -> t ∈ expected_colors ->
  exists l' d',
    fix_target t (l, d) = Ok (Continue (l', d')) /\
    length l' = 54%nat /\ counts_agree l' d' /\ rtc retarget l l'.
Proof.
  intros Hlen Hagree Ht.
  destruct (fix_target_post l d t Hlen Hagree Ht) as (l' & d' & Hrun & Hlen' & Hagree' & _).
  exists l', d'. split_and!; try done.
  unfold fix_target in Hrun.
  rewrite (dict_getitem_Some _ _ _ (Hagree t Ht)) in Hrun.
  unfold mbind, result_bind in Hrun.
  destruct (9 <? occ t l).
  - destruct (for_in (range (length l)) (shed_excess_at t) (l, d, occ t l - 9))
      as [[[l1 d1] e1]|] eqn:Hloop; [|discriminate].
    injection Hrun as <- <-. by eapply shed_retargets.
  - destruct (occ t l <? 9).
    + destruct (for_in (range (length l)) (fill_need_at t) (l, d, 9 - occ t l))
        as [[[l1 d1] e1]|] eqn:Hloop; [|discriminate].
      injection Hrun as <- <-. by eapply fill_retargets.
    + injection Hrun as <- <-. apply rtc_refl.
Qed.

(** The same rule, when what a run of the body keeps depends on the element
    being one of the list. *)
Lemma for_in_preserves_elem {A S : Type} (I : S -> Prop)
    (body : A -> S -> result (control S)) (xs : list A) (s s' : S) :
  (forall x s s1, x ∈ xs -> I s ->
     body x s = Ok (Continue s1) \/ body x s = Ok (Break s1) -> I s1) ->
  I s -> for_in xs body s = Ok s' -> I s'.
Proof.
  revert s. induction xs as [|x xs IH]; intros s Hstep HI Hrun; simpl in Hrun.
  - by injection Hrun as <-.
  - assert (Hrest : forall y s s1, y ∈ xs -> I s ->
              body y s = Ok (Continue s1) \/ body y s = Ok (Break s1) -> I s1).
    { intros y s0 s1 Hy. apply Hstep. by right. }
    destruct (body x s) as [[s1|s1]|e] eqn:Hbody; [| |discriminate].
    + apply (IH s1); [exact Hrest| |exact Hrun].
      apply (Hstep x s s1); [left|exact HI|by left].
    + injection Hrun as <-. apply (Hstep x s s1); [left|exact HI|by right].
Qed.

Lemma repair_loop_retargets l (d : dict ascii Z) l' d' :
  for_in expected_colors fix_target (l, d) = Ok (l', d') ->
  length l = 54%nat -> counts_agree l d -> rtc retarget l l'.
Proof.
  intros Hrun Hlen Hagree.
  apply (for_in_preserves_elem
    (fun st : list ascii * dict ascii Z => let '(l1, d1) := st in
       length l1 = 54%nat /\ counts_agree l1 d1 /\ rtc retarget l l1)
    fix_target expected_colors (l, d) (l', d')); [|done|exact Hrun].
  intros t [l1 d1] s1 Ht (Hlen1 & Hagree1 & Hchain) Hbody.
  destruct (fix_target_retargets l1 d1 t Hlen1 Hagree1 Ht)
    as (l2 & d2 & Heq & Hlen2 & Hagree2 & Hstep).
  rewrite Heq in Hbody. destruct Hbody as [[= <-]|[=]].
  split_and!; try done. by eapply rtc_trans.
Qed.

(** ** What a chain of retargets does *)

Lemma differ_refl l : differ l l = 0.
Proof. induction l as [|x l IH]; simpl; [reflexivity|]. rewrite same_refl. lia. Qed.

Lemma differ_insert l0 l i x0 x y :
  l0 !! i = Some x0 -> l !! i = Some x ->
  differ l0 (<[i:=y]> l) = differ l0 l + same x0 x - same x0 y.
Proof.
  revert l i. induction l0 as [|z l0 IH]; intros [|w l] [|i]; simpl; try discriminate.
  - intros [= ->] [= ->]. lia.
  - intros H0 Hl. rewrite (IH l i H0 Hl). lia.
Qed.

Lemma over_retarget l i x y :
  l !! i = Some x -> x ∈ expected_colors -> y ∈ expected_colors ->
  9 < occ x l -> occ y l < 9 -> over (<[i:=y]> l) = over l - 1.
Proof.
  intros Hi Hx Hy Hgt Hlt. unfold over. rewrite !(occ_insert _ l i x y Hi).
  six_cases Hx; six_cases Hy; unfold same; simpl; lia.
Qed.

(** Along a chain of retargets the length stays, no count crosses nine, a
    changed position went from a symbol in excess to a symbol in deficit, and
    every step removes one sticker in excess by changing one position that
    had not been changed. *)
Lemma retargets_facts l0 l :
  rtc retarget l0 l ->
  length l = length l0 /\
  (forall c, (occ c l0 <= 9 -> occ c l0 <= occ c l <= 9) /\
             (9 <= occ c l0 -> 9 <= occ c l <= occ c l0)) /\
  (forall j x y, l0 !! j = Some x -> l !! j = Some y -> x <> y ->
     x ∈ expected_colors /\ y ∈ expected_colors /\
     9 < occ x l0 /\ occ y l0 < 9 /\ occ y l <= 9) /\
  differ l0 l + over l = over l0.
Proof.
  revert l. apply rtc_ind_r.
  - split; [reflexivity|]. split; [intros c; lia|]. split.
    + intros j x y Hx Hy Hne. congruence.
    + rewrite differ_refl. lia.
  - intros l l' Hchain Hstep IH.
    destruct IH as (Hlen & Hcounts & Hchanged & Hsum).
    destruct Hstep as [i x y Hi Hx6 Hy6 Hgt Hlt ->].
    assert (Hxy : x <> y) by (intros ->; lia).
    assert (Hx0 : 9 < occ x l0) by (destruct (Hcounts x); lia).
    assert (Hy0 : occ y l0 < 9) by (destruct (Hcounts y); lia).
    assert (Horig : l0 !! i = Some x).
    { destruct (lookup_lt_is_Some_2 l0 i) as [x0 Hx0i].
      { rewrite <- Hlen. by eapply lookup_lt_Some. }
      destruct (decide (x0 = x)) as [->|Hne]; [done|].
      destruct (Hchanged i x0 x Hx0i Hi Hne) as (_ & _ & _ & _ & Hle). lia. }
    split_and!.
    + by rewrite length_insert.
    + intros c. rewrite (occ_insert c l i x y Hi). destruct (Hcounts c). unfold same.
      destruct (decide (x = c)), (decide (y = c)); subst; try congruence; lia.
    + intros j x1 y1 Hx1 Hy1 Hne.
      destruct (decide (j = i)) as [->|Hji].
      * rewrite list_lookup_insert_eq in Hy1 by (by eapply lookup_lt_Some).
        simplify_eq. split_and!; try done.
        rewrite (occ_insert _ l i _ _ Hi). unfold same.
        repeat case_decide; simplify_eq; lia.
      * rewrite list_lookup_insert_ne in Hy1 by done.
        destruct (Hchanged j x1 y1 Hx1 Hy1 Hne) as (? & ? & ? & ? & Hle).
        split_and!; try done.
        rewrite (occ_insert y1 l i x y Hi). unfold same.
        destruct (decide (x = y1)), (decide (y = y1)); subst; try congruence; lia.
    + rewrite (differ_insert l0 l i x x y Horig Hi), same_refl, (same_ne x y Hxy).
      rewrite (over_retarget l i x y Hi Hx6 Hy6 Hgt Hlt). lia.
Qed.

(** [validate_and_fix_cube_state] on 54 characters, as lists: the result is
    reached by a chain of retargets and, from the six symbols only, holds nine
    of each. *)
Lemma repair_result s :
  String.length s = 54%nat ->
  let l := list_ascii_of_string s in
  exists l', validate_and_fix_cube_state s = Ok (string_of_list_ascii l') /\
    length l' = 54%nat /\ rtc retarget l l' /\
    (six_only l -> six_only l' /\ nine_each l').
Proof.
  intros Hlen l. unfold validate_and_fix_cube_state.
  destruct (decide (String.length s <> 54%nat)) as [Hne|_]; [contradiction|].
  fold l. assert (Hlen' : length l = 54%nat).
  { subst l. by rewrite length_list_ascii_of_string. }
  assert (Hagree : counts_agree l (add_missing (count_colors l))).
  { intros c Hc. by apply initial_counts_six. }
  destruct (needs_fixing (add_missing (count_colors l))) eqn:Hfix.
  - destruct (repair_loop l _ Hlen' Hagree) as (l' & d' & Hrun & Hlen2 & Hpost).
    rewrite Hrun. run. exists l'. split_and!; try done.
    by eapply repair_loop_retargets.
  - exists l. subst l. rewrite string_of_list_ascii_of_string. split_and!; try done.
    intros Hsix. split; [done|]. intros c Hc.
    rewrite needs_fixing_false in Hfix. apply (Hfix c).
    apply dict_find_Some_elem. by apply initial_counts_six.
Qed.

(** X9: on any string of 54 characters, a position that
    [validate_and_fix_cube_state] changes held one of the six symbols on more
    than nine positions of the input and receives one of the six symbols on
    fewer than nine positions of the input.  So a character outside the six
    symbols, and a sticker of a symbol on at most nine positions, stay. *)
Theorem repair_changes_excess_to_deficit (cube_state : string) :
  String.length cube_state = 54%nat ->
  exists out, validate_and_fix_cube_state cube_state = Ok out /\
    forall j x y,
      list_ascii_of_string cube_state !! j = Some x ->
      list_ascii_of_string out !! j = Some y -> x <> y ->
      x ∈ expected_colors /\ y ∈ expected_colors /\
      9 < occ x (list_ascii_of_string cube_state) /\
      occ y (list_ascii_of_string cube_state) < 9.
Proof.
  intros Hlen.
  destruct (repair_result cube_state Hlen) as (l' & Hrun & _ & Hchain & _).
  exists (string_of_list_ascii l'). split; [exact Hrun|].
  rewrite list_ascii_of_string_of_list_ascii.
  destruct (retargets_facts _ _ Hchain) as (_ & _ & Hchanged & _).
  intros j x y Hx Hy Hne. destruct (Hchanged j x y Hx Hy Hne) as (? & ? & ? & ? & _).
  done.
Qed.

Lemma repair_changes_excess_to_deficit_witness :
  exists out,
    validate_and_fix_cube_state
      "xxxxxxxxxxxxxxxxxxxxDDDDDDDDDDDDDDDDDDDDBBBBBBBBBBBBBB" = Ok out /\
    forall j x y,
      list_ascii_of_string "xxxxxxxxxxxxxxxxxxxxDDDDDDDDDDDDDDDDDDDDBBBBBBBBBBBBBB" !! j
        = Some x ->
      list_ascii_of_string out !! j = Some y -> x <> y ->
      x ∈ expected_colors /\ y ∈ expected_colors /\
      9 < occ x (list_ascii_of_string
                   "xxxxxxxxxxxxxxxxxxxxDDDDDDDDDDDDDDDDDDDDBBBBBBBBBBBBBB") /\
      occ y (list_ascii_of_string
               "xxxxxxxxxxxxxxxxxxxxDDDDDDDDDDDDDDDDDDDDBBBBBBBBBBBBBB") < 9.
Proof.
  apply (repair_changes_excess_to_deficit
           "xxxxxxxxxxxxxxxxxxxxDDDDDDDDDDDDDDDDDDDDBBBBBBBBBBBBBB").
  reflexivity.
Defined.

(** X10: on any string of 54 characters, no count crosses nine: a character
    on at most nine positions of the input is on at least as many, and at most
    nine, positions of the result; a character on at least nine positions is
    on at most as many, and at least nine. *)
Theorem repair_counts_move_toward_nine (cube_state : string) (c : ascii) :
  String.length cube_state = 54%nat ->
  exists out, validate_and_fix_cube_state cube_state = Ok out /\
    (occ c (list_ascii_of_string cube_state) <= 9 ->
       occ c (list_ascii_of_string cube_state) <= occ c (list_ascii_of_string out) <= 9) /\
    (9 <= occ c (list_ascii_of_string cube_state) ->
       9 <= occ c (list_ascii_of_string out) <= occ c (list_ascii_of_string cube_state)).
Proof.
  intros Hlen.
  destruct (repair_result cube_state Hlen) as (l' & Hrun & _ & Hchain & _).
  exists (string_of_list_ascii l'). split; [exact Hrun|].
  rewrite list_ascii_of_string_of_list_ascii.
  destruct (retargets_facts _ _ Hchain) as (_ & Hcounts & _). apply Hcounts.
Qed.

Lemma repair_counts_move_toward_nine_witness :
  exists out,
    validate_and_fix_cube_state
      "xxxxxxxxxxxxxxxxxxxxDDDDDDDDDDDDDDDDDDDDBBBBBBBBBBBBBB" = Ok out /\
    (occ "D" (list_ascii_of_string
                "xxxxxxxxxxxxxxxxxxxxDDDDDDDDDDDDDDDDDDDDBBBBBBBBBBBBBB") <= 9 ->
       occ "D" (list_ascii_of_string
                  "xxxxxxxxxxxxxxxxxxxxDDDDDDDDDDDDDDDDDDDDBBBBBBBBBBBBBB")
       <= occ "D" (list_ascii_of_string out) <= 9) /\
    (9 <= occ "D" (list_ascii_of_string
                     "xxxxxxxxxxxxxxxxxxxxDDDDDDDDDDDDDDDDDDDDBBBBBBBBBBBBBB") ->
       9 <= occ "D" (list_ascii_of_string out)
       <= occ "D" (list_ascii_of_string
                     "xxxxxxxxxxxxxxxxxxxxDDDDDDDDDDDDDDDDDDDDBBBBBBBBBBBBBB")).
Proof.
  apply (repair_counts_move_toward_nine
           "xxxxxxxxxxxxxxxxxxxxDDDDDDDDDDDDDDDDDDDDBBBBBBBBBBBBBB" "D").
  reflexivity.
Defined.

Lemma nine_each_over l : nine_each l -> over l = 0.
Proof. intros Hnine. unfold over. six_inst Hnine. lia. Qed.

(** A symbol is at most one of the six. *)
Lemma same_six_sum x :
  same x "U" + same x "R" + same x "F" + same x "D" + same x "L" + same x "B" <= 1.
Proof.
  unfold same.
  destruct (decide (x = "U"%char)) as [->|?]; [simpl; lia|].
  destruct (decide (x = "R"%char)) as [->|?]; [simpl; lia|].
  destruct (decide (x = "F"%char)) as [->|?]; [simpl; lia|].
  destruct (decide (x = "D"%char)) as [->|?]; [simpl; lia|].
  destruct (decide (x = "L"%char)) as [->|?]; [simpl; lia|].
  destruct (decide (x = "B"%char)) as [->|?]; [simpl; lia|].
  lia.
Qed.

(** Two sequences of one length differ at least at as many positions as the
    first holds more of some of the six symbols than the second. *)
Lemma differ_lower_bound l0 l :
  length l0 = length l ->
  Z.max 0 (occ "U" l0 - occ "U" l) + Z.max 0 (occ "R" l0 - occ "R" l) +
  Z.max 0 (occ "F" l0 - occ "F" l) + Z.max 0 (occ "D" l0 - occ "D" l) +
  Z.max 0 (occ "L" l0 - occ "L" l) + Z.max 0 (occ "B" l0 - occ "B" l)
  <= differ l0 l.
Proof.
  revert l. induction l0 as [|x l0 IH]; intros [|y l] Hlen; simpl in *; try lia.
  specialize (IH l ltac:(lia)).
  destruct (decide (x = y)) as [->|Hne].
  - rewrite same_refl. lia.
  - rewrite (same_ne x y Hne).
    pose proof (same_six_sum x).
    pose proof (same_range x "U"). pose proof (same_range x "R").
    pose proof (same_range x "F"). pose proof (same_range x "D").
    pose proof (same_range x "L"). pose proof (same_range x "B").
    pose proof (same_range y "U"). pose proof (same_range y "R").
    pose proof (same_range y "F"). pose proof (same_range y "D").
    pose proof (same_range y "L"). pose proof (same_range y "B").
    lia.
Qed.

(** X11: on a string of 54 characters over the six symbols, the number of
    positions that [validate_and_fix_cube_state] changes is the number of
    stickers in excess (the sum, over the symbols on more than nine positions,
    of their occurrences beyond nine), and no sequence of 54 symbols with nine
    of each differs from the input at fewer positions. *)
Theorem repair_changes_as_few_as_possible (cube_state : string) :
  String.length cube_state = 54%nat ->
  six_only (list_ascii_of_string cube_state) ->
  exists out, validate_and_fix_cube_state cube_state = Ok out /\
    differ (list_ascii_of_string cube_state) (list_ascii_of_string out)
    = over (list_ascii_of_string cube_state) /\
    forall other, length other = 54%nat -> nine_each other ->
      differ (list_ascii_of_string cube_state) (list_ascii_of_string out)
      <= differ (list_ascii_of_string cube_state) other.
Proof.
  intros Hlen Hsix.
  destruct (repair_result cube_state Hlen) as (l' & Hrun & _ & Hchain & Hpost).
  exists (string_of_list_ascii l'). split; [exact Hrun|].
  rewrite list_ascii_of_string_of_list_ascii.
  destruct (retargets_facts _ _ Hchain) as (_ & _ & _ & Hsum).
  destruct (Hpost Hsix) as [_ Hnine]. rewrite (nine_each_over l' Hnine) in Hsum.
  split; [lia|]. intros other Hother Hnine'.
  pose proof (differ_lower_bound (list_ascii_of_string cube_state) other) as Hlow.
  rewrite length_list_ascii_of_string, Hlen, Hother in Hlow. specialize (Hlow eq_refl).
  unfold over in Hsum. six_inst Hnine'.
  repeat match goal with H : occ _ other = 9 |- _ => rewrite H in Hlow; clear H end.
  lia.
Qed.

Lemma repair_changes_as_few_as_possible_witness :
  exists out,
    validate_and_fix_cube_state
      "UUUUUUUUUUUUUUURRRRRRRRRFFFFFFFFFDDDDDDDDDLLLLLLLLLBBB" = Ok out /\
    differ (list_ascii_of_string "UUUUUUUUUUUUUUURRRRRRRRRFFFFFFFFFDDDDDDDDDLLLLLLLLLBBB")
           (list_ascii_of_string out)
    = over (list_ascii_of_string "UUUUUUUUUUUUUUURRRRRRRRRFFFFFFFFFDDDDDDDDDLLLLLLLLLBBB") /\
    forall other, length other = 54%nat -> nine_each other ->
      differ (list_ascii_of_string "UUUUUUUUUUUUUUURRRRRRRRRFFFFFFFFFDDDDDDDDDLLLLLLLLLBBB")
             (list_ascii_of_string out)
      <= differ (list_ascii_of_string
                   "UUUUUUUUUUUUUUURRRRRRRRRFFFFFFFFFDDDDDDDDDLLLLLLLLLBBB") other.
Proof.
  apply (repair_changes_as_few_as_possible
           "UUUUUUUUUUUUUUURRRRRRRRRFFFFFFFFFDDDDDDDDDLLLLLLLLLBBB").
  - reflexivity.
  - apply six_only_decide. reflexivity.
Defined.

(** ** The image pipeline: what a readable mapping gives *)

Lemma length_string_append s1 s2 :
  String.length (String.append s1 s2) = (String.length s1 + String.length s2)%nat.
Proof. induction s1 as [|a s1 IH]; simpl; [reflexivity|]. by rewrite IH. Qed.

Lemma list_ascii_of_string_append s1 s2 :
  list_ascii_of_string (String.append s1 s2)
  = list_ascii_of_string s1 ++ list_ascii_of_string s2.
Proof. induction s1 as [|a s1 IH]; simpl; [reflexivity|]. by rewrite IH. Qed.

Section PipelineResults.
Variable image : Type.
Variable imread : string -> option image.
Variable avg_color : image -> nat -> nat -> hsv.

Lemma scan_grid_six img : six_only (scan_grid image avg_color img).
Proof.
  unfold six_only, scan_grid, range. cbn [seq flat_map map app].
  repeat (apply Forall_cons; split; [apply classify_sticker_six|]).
  apply Forall_nil. done.
Qed.

Lemma recognize_loaded_nine (image_path face_label : string) (img : image) :
  imread image_path = Some img ->
  exists colors,
    recognize_face_colors image imread avg_color image_path face_label = Ok colors /\
    length colors = 9%nat /\ six_only colors.
Proof.
  intros Himg. unfold recognize_face_colors. rewrite Himg.
  destruct (fix_post (scan_grid image avg_color img) face_label (scan_grid_length _ _ img))
    as (out & Hout & Hlen & Hsub & _).
  exists out. split_and!; try done.
  apply Forall_forall. intros x Hx. destruct (Hsub x Hx) as [Hin|Hin]; [|exact Hin].
  pose proof (scan_grid_six img) as Hsix. unfold six_only in Hsix.
  rewrite Forall_forall in Hsix. by apply Hsix.
Qed.

(** X12: [recognize_face_colors] raises exactly when the image does not load,
    a [ValueError] naming the path; when the image loads it returns nine
    symbols, each one of the six. *)
Theorem recognize_face_colors_contract (image_path face_label : string) :
  match imread image_path with
  | None =>
      recognize_face_colors image imread avg_color image_path face_label
      = Raise (ValueError (String.append "Could not load image: " image_path))
  | Some img =>
      exists colors,
        recognize_face_colors image imread avg_color image_path face_label = Ok colors /\
        length colors = 9%nat /\ six_only colors
  end.
Proof.
  destruct (imread image_path) as [img|] eqn:Himg.
  - by apply (recognize_loaded_nine image_path face_label img).
  - unfold recognize_face_colors. by rewrite Himg.
Qed.

(** The loop over readable faces classifies each of them and appends nine of
    the six symbols for each. *)
Lemma scan_all_readable image_paths faces cube_state classified :
  (forall g, g ∈ faces -> readable imread image_paths g) ->
  exists cube_state',
    scan_faces image imread avg_color image_paths faces cube_state classified
    = (classified ++ faces, Ok cube_state') /\
    String.length cube_state' = (String.length cube_state + 9 * length faces)%nat /\
    (six_only (list_ascii_of_string cube_state) ->
     six_only (list_ascii_of_string cube_state')).
Proof.
  revert cube_state classified.
  induction faces as [|g faces IH]; intros cube_state classified Hall; simpl.
  - exists cube_state. rewrite app_nil_r. split_and!; [done|lia|done].
  - destruct (Hall g) as (image_path & img & Hpath & Himg); [left|].
    rewrite (dict_getitem_Some _ _ _ Hpath).
    destruct (recognize_loaded_nine image_path g img Himg)
      as (colors & -> & Hlen & Hsix).
    destruct (IH (String.append cube_state (string_of_list_ascii colors))
                 (classified ++ [g])) as (cube_state' & -> & Hlen' & Hsix').
    { intros g' Hg'. apply Hall. by right. }
    exists cube_state'. rewrite <- app_assoc. split_and!; [done| |].
    + rewrite Hlen', length_string_append, length_string_of_list_ascii, Hlen. lia.
    + intros Hcs. apply Hsix'.
      rewrite list_ascii_of_string_append, list_ascii_of_string_of_list_ascii.
      by apply Forall_app.
Qed.

(** The cube state assembled from six readable faces and repaired. *)
Lemma assemble_readable image_paths :
  (forall g, g ∈ face_order -> readable imread image_paths g) ->
  exists cube_state l',
    scan_faces image imread avg_color image_paths face_order EmptyString []
    = (face_order, Ok cube_state) /\
    validate_and_fix_cube_state cube_state = Ok (string_of_list_ascii l') /\
    length l' = 54%nat /\ six_only l' /\ nine_each l'.
Proof.
  intros Hall.
  destruct (scan_all_readable image_paths face_order EmptyString [] Hall)
    as (cube_state & Hscan & Hlen & Hsix).
  cbn [app] in Hscan. simpl in Hlen. specialize (Hsix ltac:(by apply Forall_nil)).
  destruct (repair_result cube_state Hlen) as (l' & Hrun & Hlen' & _ & Hpost).
  destruct (Hpost Hsix) as [Hsix' Hnine].
  by exists cube_state, l'.
Qed.

(** X13: when the mapping holds a loadable image for each of the six faces,
    [solve_cube_from_images] classifies the six faces in the order U, R, F, D,
    L, B and returns one entry, [cube_state], a string of 54 symbols with nine
    of each of the six. *)
Theorem solve_returns_a_balanced_state (image_paths : dict string string) :
  (forall g, g ∈ face_order -> readable imread image_paths g) ->
  exists cube_state,
    solve_cube_from_images_traced image imread avg_color image_paths
    = (face_order, Ok [("cube_state"%string, cube_state)]) /\
    String.length cube_state = 54%nat /\
    six_only (list_ascii_of_string cube_state) /\
    nine_each (list_ascii_of_string cube_state).
Proof.
  intros Hall.
  destruct (assemble_readable image_paths Hall)
    as (cube_state & l' & Hscan & Hrun & Hlen & Hsix & Hnine).
  exists (string_of_list_ascii l').
  unfold solve_cube_from_images_traced. rewrite Hscan. run. rewrite Hrun. run.
  rewrite length_string_of_list_ascii, list_ascii_of_string_of_list_ascii.
  by split_and!.
Qed.
End PipelineResults.

Lemma solve_returns_a_balanced_state_witness :
  exists cube_state,
    solve_cube_from_images_traced hsv studio_imread flat_avg
      [ ("B", "b.png"); ("L", "l.png"); ("D", "d.png");
        ("F", "f.png"); ("R", "r.png"); ("U", "u.png") ]%string
    = (face_order, Ok [("cube_state"%string, cube_state)]) /\
    String.length cube_state = 54%nat /\
    six_only (list_ascii_of_string cube_state) /\
    nine_each (list_ascii_of_string cube_state).
Proof.
  apply (solve_returns_a_balanced_state hsv studio_imread flat_avg).
  intros g Hg. unfold face_order in Hg.
  repeat (apply elem_of_cons in Hg as [->|Hg]); [..|by inversion Hg];
    eexists _, (HSV 0 0 255); split; reflexivity.
Defined.

(** ** app.py: the [/solve] route *)

Section RouteFacts.
Variable image : Type.
Variable upload : Type.
Variable truthy : upload -> bool.
Variable decode : upload -> option image.
Variable avg_color : image -> nat -> nat -> hsv.
Variable secure_filename : string -> string.
Variable path_join : string -> string -> string.
Variable UPLOAD_DIR : string.

Local Abbreviation path_of := (upload_path secure_filename path_join UPLOAD_DIR).
Local Abbreviation store := (store_uploads upload truthy secure_filename path_join UPLOAD_DIR).
Local Abbreviation route :=
  (solve image upload truthy decode avg_color secure_filename path_join UPLOAD_DIR).

(** The loop saves the files of the faces that were sent and stops at the
    first face that was not. *)
Lemma store_uploads_stops req pre f post fs image_paths :
  (forall g, g ∈ pre -> sent truthy (files upload req) g) ->
  not_sent truthy (files upload req) f ->
  store req (pre ++ f :: post) fs image_paths
  = (saved_uploads path_of (files upload req) pre fs, inr f).
Proof.
  revert fs image_paths.
  induction pre as [|g pre IH]; intros fs image_paths Hpre Hf; simpl.
  - unfold not_sent in Hf. destruct (dict_find (files upload req) f) as [file|];
      [by rewrite Hf|done].
  - destruct (Hpre g) as (file & Hfile & Htrue); [left|].
    rewrite Hfile, Htrue. apply IH; [|exact Hf].
    intros g' Hg'. apply Hpre. by right.
Qed.

Lemma store_uploads_all req faces fs image_paths :
  (forall g, g ∈ faces -> sent truthy (files upload req) g) ->
  store req faces fs image_paths
  = (saved_uploads path_of (files upload req) faces fs,
     inl (uploaded_paths path_of faces image_paths)).
Proof.
  revert fs image_paths.
  induction faces as [|g faces IH]; intros fs image_paths Hall; simpl; [done|].
  destruct (Hall g) as (file & Hfile & Htrue); [left|].
  rewrite Hfile, Htrue. apply IH. intros g' Hg'. apply Hall. by right.
Qed.

Lemma uploaded_paths_find faces image_paths g :
  g ∈ faces -> dict_find (uploaded_paths path_of faces image_paths) g = Some (path_of g).
Proof.
  unfold uploaded_paths.
  assert (Hgen : forall faces (d : dict string string),
            dict_find (foldl (fun d face => dict_set d face (path_of face)) d faces) g
            = if decide (g ∈ faces) then Some (path_of g) else dict_find d g).
  { clear faces image_paths. induction faces as [|h faces IH]; intros d; cbn [foldl].
    - destruct (decide (g ∈ [])) as [Hin|]; [inversion Hin|done].
    - rewrite IH, dict_find_set.
      destruct (decide (g ∈ faces)) as [Hin|Hnin], (decide (g ∈ h :: faces)) as [Hin'|Hnin'];
        try done.
      + exfalso. apply Hnin'. by right.
      + apply elem_of_cons in Hin' as [->|?]; [|done]. by destruct (decide (h = h)).
      + destruct (decide (h = g)) as [->|]; [|done]. exfalso. apply Hnin'. left. }
  intros Hg. rewrite Hgen. by destruct (decide (g ∈ faces)).
Qed.

(** A path that no later face is saved under keeps its file. *)
Lemma saved_uploads_other (files0 : dict string upload) faces fs p :
  p ∉ map path_of faces ->
  dict_find (saved_uploads path_of files0 faces fs) p = dict_find fs p.
Proof.
  unfold saved_uploads. revert fs.
  induction faces as [|h faces IH]; intros fs Hp; cbn [foldl]; [done|].
  rewrite IH by (intros Hin; apply Hp; by right).
  destruct (dict_find files0 h) as [file|]; [|done].
  apply dict_find_set_ne. intros Heq. apply Hp. rewrite <- Heq. left.
Qed.

Lemma saved_uploads_find (files0 : dict string upload) faces fs g file :
  NoDup (map path_of faces) -> g ∈ faces -> dict_find files0 g = Some file ->
  dict_find (saved_uploads path_of files0 faces fs) (path_of g) = Some file.
Proof.
  revert fs. induction faces as [|h faces IH]; intros fs Hnd Hg Hfile; [inversion Hg|].
  cbn [map] in Hnd. apply NoDup_cons in Hnd as [Hnin Hnd].
  apply elem_of_cons in Hg as [->|Hg].
  - unfold saved_uploads. cbn [foldl]. rewrite Hfile.
    fold (saved_uploads path_of files0 faces (dict_set fs (path_of h) file)).
    rewrite saved_uploads_other by exact Hnin. apply dict_find_set_eq.
  - unfold saved_uploads. cbn [foldl]. by apply IH.
Qed.

(** X14: a multipart request that lacks the file of a face is answered with
    status 400 and an error naming the first such face in the order U, R, F,
    D, L, B; nothing is classified, yet the files of the faces before it have
    already been saved. *)
Theorem route_rejects_missing_upload
    (req : request upload) (fs : dict string upload) (pre post : list string) (f : string) :
  is_json upload req = false ->
  required_faces = pre ++ f :: post ->
  (forall g, g ∈ pre -> sent truthy (files upload req) g) ->
  not_sent truthy (files upload req) f ->
  route req fs
  = (saved_uploads path_of (files upload req) pre fs,
     Ok (Response [("error", String.append "Missing image for face " f)]%string 400)).
Proof.
  intros Hjson Horder Hpre Hf. unfold solve. rewrite Hjson, Horder.
  by rewrite (store_uploads_stops req pre f post fs [] Hpre Hf).
Qed.

(** X15: a multipart request with a file for each of the six faces, each file
    a loadable image, saved under six different paths, is answered with status
    200 and a [cube_state] of 54 symbols with nine of each of the six; the
    six files are left on the file system. *)
Theorem route_answers_full_upload (req : request upload) (fs : dict string upload) :
  is_json upload req = false ->
  (forall g, g ∈ required_faces ->
     exists file img, dict_find (files upload req) g = Some file /\
                      truthy file = true /\ decode file = Some img) ->
  NoDup (map path_of required_faces) ->
  exists cube_state,
    route req fs
    = (saved_uploads path_of (files upload req) required_faces fs,
       Ok (Response [("cube_state"%string, cube_state)] 200)) /\
    String.length cube_state = 54%nat /\
    nine_each (list_ascii_of_string cube_state).
Proof.
  intros Hjson Hall Hnd. unfold solve. rewrite Hjson.
  rewrite (store_uploads_all req required_faces fs []).
  2:{ intros g Hg. destruct (Hall g Hg) as (file & img & Hfile & Htrue & _).
      by exists file. }
  set (fs' := saved_uploads path_of (files upload req) required_faces fs).
  set (image_paths := uploaded_paths path_of required_faces []).
  destruct (assemble_readable image (imread_from image upload decode fs') avg_color image_paths)
    as (cube_state & l' & Hscan & Hrun & Hlen & Hsix & Hnine).
  { intros g Hg. change face_order with required_faces in Hg.
    destruct (Hall g Hg) as (file & img & Hfile & _ & Himg).
    exists (path_of g), img. split.
    - by apply uploaded_paths_find.
    - unfold imread_from, fs'. by rewrite (saved_uploads_find _ _ _ g file Hnd Hg Hfile). }
  exists (string_of_list_ascii l').
  unfold solve_cube_from_images, solve_cube_from_images_traced.
  rewrite Hscan. cbn [snd]. run. rewrite Hrun. run.
  rewrite length_string_of_list_ascii, list_ascii_of_string_of_list_ascii.
  by split_and!.
Qed.

(** X16: a JSON request whose body has no [images] entry reaches
    [solve_cube_from_images] with an empty mapping: the [KeyError] for [U]
    escapes the route, and the file system is as it was. *)
Theorem route_json_without_images (req : request upload) (fs : dict string upload) :
  is_json upload req = true ->
  dict_find (json upload req) "images"%string = None ->
  route req fs = (fs, Raise (KeyError "U")).
Proof.
  intros Hjson Hnone. unfold solve, dict_get. by rewrite Hjson, Hnone.
Qed.
End RouteFacts.

Lemma route_rejects_missing_upload_witness :
  studio_route
    (Request hsv (Some "multipart/form-data"%string) []
             [("U", HSV 0 0 255); ("R", HSV 0 0 255); ("B", HSV 0 0 255)]%string)
    []
  = (saved_uploads studio_path
       [("U", HSV 0 0 255); ("R", HSV 0 0 255); ("B", HSV 0 0 255)]%string
       ["U"; "R"]%string [],
     Ok (Response [("error", String.append "Missing image for face " "F")]%string 400)).
Proof.
  unfold studio_route, studio_path.
  apply (route_rejects_missing_upload hsv hsv (fun _ => true) Some flat_avg
           (fun name => name) slash_join "uploaded_images"
           (Request hsv (Some "multipart/form-data"%string) []
              [("U", HSV 0 0 255); ("R", HSV 0 0 255); ("B", HSV 0 0 255)]%string)
           [] ["U"; "R"]%string ["D"; "L"; "B"]%string "F"%string).
  - reflexivity.
  - reflexivity.
  - intros g Hg. apply elem_of_cons in Hg as [->|Hg].
    + by exists (HSV 0 0 255).
    + apply list_elem_of_singleton in Hg as ->. by exists (HSV 0 0 255).
  - exact I.
Defined.

Lemma route_answers_full_upload_witness :
  exists cube_state,
    studio_route
      (Request hsv None []
               [("U", HSV 0 0 255); ("R", HSV 5 200 200); ("F", HSV 60 200 200);
                ("D", HSV 25 200 200); ("L", HSV 12 200 200); ("B", HSV 110 200 200)]%string)
      []
    = (saved_uploads studio_path
         [("U", HSV 0 0 255); ("R", HSV 5 200 200); ("F", HSV 60 200 200);
          ("D", HSV 25 200 200); ("L", HSV 12 200 200); ("B", HSV 110 200 200)]%string
         required_faces [],
       Ok (Response [("cube_state"%string, cube_state)] 200)) /\
    String.length cube_state = 54%nat /\
    nine_each (list_ascii_of_string cube_state).
Proof.
  unfold studio_route, studio_path.
  apply (route_answers_full_upload hsv hsv (fun _ => true) Some flat_avg
           (fun name => name) slash_join "uploaded_images").
  - reflexivity.
  - intros g Hg. unfold required_faces in Hg.
    repeat (apply elem_of_cons in Hg as [->|Hg]); [..|by inversion Hg];
      eexists _, _; split_and!; reflexivity.
  - compute_done.
Defined.

Lemma route_json_without_images_witness :
  studio_route (Request hsv (Some "application/json; charset=utf-8"%string) [] []) []
  = ([], Raise (KeyError "U")).
Proof.
  unfold studio_route, studio_path.
  apply (route_json_without_images hsv hsv (fun _ => true) Some flat_avg
           (fun name => name) slash_join "uploaded_images").
  - reflexivity.
  - reflexivity.
Defined.

Lemma COLOR_RANGES_no_tie_witness :
  ~ (match_score (HSV 7 200 200) (HSV 0 120 70) (HSV 10 255 255)
     == match_score (HSV 7 200 200) (HSV 5 120 70) (HSV 20 255 255))%Q.
Proof.
  apply (COLOR_RANGES_no_tie 7 200 200 "R" (HSV 0 120 70) (HSV 10 255 255)
           "L" (HSV 5 120 70) (HSV 20 255 255)).
  - unfold COLOR_RANGES. right. left.
  - unfold COLOR_RANGES. do 4 right. left.
  - discriminate.
  - reflexivity.
  - reflexivity.
Defined.
